(** * H1B wage dashboard: the [/api/analyze] route

    A shallow embedding of [app/api/analyze/route.ts] (the salary versus
    prevailing-wage comparison) and the properties of it that the
    specification states.

    JavaScript numbers are IEEE 754 binary64 values; they are embedded as
    Rocq's primitive [float], whose operations are the same binary64
    operations with round-to-nearest-even.  Universal statements about them
    go through the library's [spec_float] specification ([Prim2SF]). *)

From Stdlib Require Import ZArith QArith Qpower Qabs Floats String List Bool.
From Stdlib Require Import Lia Lqa.
From Stdlib Require Import Sorted Permutation Ascii.
Import ListNotations.

Set Warnings "-inexact-float".

(** ** JavaScript values and coercions *)

(** The primitive values a parsed JSON body or a Firestore document field can
    hold; a missing key reads as [JUndefined].  Arrays and nested objects
    are left out: the handler never looks inside one. *)
Inductive jsval : Type :=
| JUndefined
| JNull
| JBool (b : bool)
| JNumber (x : float)
| JString (s : string).

(** [x === "literal"] against a string literal. *)
Definition strict_eq_string (v : jsval) (lit : string) : bool :=
  match v with
  | JString s => String.eqb s lit
  | _ => false
  end.

(** [isNaN(x)] on a number. *)
Definition isNaN (x : float) : bool := PrimFloat.is_nan x.

(** ECMAScript [ToBoolean]: the falsy values are [undefined], [null],
    [false], [+0], [-0], [NaN] and the empty string. *)
Definition ToBoolean (v : jsval) : bool :=
  match v with
  | JUndefined | JNull => false
  | JBool b => b
  | JNumber x => negb ((x =? 0)%float || isNaN x)
  | JString s => negb (String.eqb s EmptyString)
  end.

(** [a || b] on values. *)
Definition js_or (a b : jsval) : jsval := if ToBoolean a then a else b.

(** [a ?? b] on values. *)
Definition js_nullish (a b : jsval) : jsval :=
  match a with
  | JUndefined | JNull => b
  | _ => a
  end.

(** ** Numbers

    The two conversion helpers only multiply and divide by a literal.  They
    are written once over the operations they use.  The program runs them
    on binary64 ([float_Arith]), and every statement about the program is
    made on that instance.  The instance on the rationals ([Q_Arith]) is not
    what runs: it only gives a meaning to the words "exact over rationals"
    of the specification, next to the binary64 statement. *)
Class Arith (N : Type) : Type := {
  nmul : N -> N -> N;
  ndiv : N -> N -> N;
  nlit : Z -> N
}.

(** An integer literal denotes the binary64 value nearest to it. *)
Definition float_of_Z (z : Z) : float :=
  SF2Prim (binary_normalize prec emax z 0 false).

#[export] Instance float_Arith : Arith float :=
  {| nmul := PrimFloat.mul; ndiv := PrimFloat.div; nlit := float_of_Z |}.

#[export] Instance Q_Arith : Arith Q :=
  {| nmul := Qmult; ndiv := Qdiv; nlit := inject_Z |}.

Section Conversion.
Context {N : Type} `{Arith N}.

(** [function toAnnual(salary, mode)].  The TypeScript type of [mode] is
    erased at run time: the test is a strict comparison with the string
    ["annual"], whatever the value is. *)
Definition toAnnual (salary : N) (mode : jsval) : N :=
  if strict_eq_string mode "annual" then salary
  else nmul salary (nlit 2080).

(** [function toHourly(salaryAnnual)]. *)
Definition toHourly (salaryAnnual : N) : N :=
  ndiv salaryAnnual (nlit 2080).
End Conversion.

(** ** Data of the route *)

Inductive Status : Type := below | meets | exceeds.

(** A thrown JavaScript error; [message] may be nullish. *)
Record Error : Type := { message : option string }.

(** The fields of the request body that the handler reads. *)
Record Body : Type := {
  b_state : jsval;
  b_county : jsval;
  b_soc_code : jsval;
  b_salary_value : jsval;
  b_mode : jsval
}.

(** [req.json()] either throws or yields the parsed body.  A body that is
    [null] makes the first field read throw, which takes the same path. *)
Record NextRequest : Type := { req_json : Error + Body }.

(** A document of the [h1bwages_data] collection, as [doc.data()]. *)
Record WageDoc : Type := {
  l1_wage : jsval;
  l2_wage : jsval;
  l3_wage : jsval;
  l4_wage : jsval;
  job_title : jsval
}.

(** The Firestore collaborator: the query on (state, county, soc_code) with
    [limit(1)], which throws or returns the documents of the snapshot. *)
Definition Firestore : Type := jsval -> jsval -> jsval -> Error + list WageDoc.

Record Level : Type := { key : string; wageAnnual : jsval }.

Record Row : Type := {
  level : string;
  annual_wage : jsval;
  hourly_wage : float;
  ratio : float;
  status : Status;
  toReachAnnual : float
}.

Record InputEcho : Type := {
  in_state : jsval;
  in_county : jsval;
  in_soc_code : jsval;
  in_job_title : jsval;
  in_salary_value : float;
  in_mode : jsval;
  salary_annual : float;
  salary_hourly : float
}.

Record Wages : Type := { w_l1 : jsval; w_l2 : jsval; w_l3 : jsval; w_l4 : jsval }.

Record Chart : Type := {
  chart_levels : list string;
  wagesAnnual : list jsval;
  chart_userSalaryAnnual : float
}.

(** The body of the [ok: true] response. *)
Record Payload : Type := {
  input : InputEcho;
  wages : Wages;
  chart : Chart;
  table : list Row
}.

(** [NextResponse.json(...)]: the success payload (status 200), or
    [{ok: false, error}] with an HTTP status. *)
Inductive NextResponse : Type :=
| JsonOk (p : Payload)
| JsonError (http_status : Z) (error : string).

(** ** Effects

    The handler reads the request and the store, and writes to the console
    when it catches an error.  [World] is what it can write to; a
    computation threads the world and may throw. *)
Record World : Type := { console : list (string * Error) }.

Definition Eff (A : Type) : Type := World -> (Error + A) * World.

Definition ret {A} (a : A) : Eff A := fun w => (inr a, w).

Definition throw {A} (e : Error) : Eff A := fun w => (inl e, w).

Definition bind {A B} (m : Eff A) (k : A -> Eff B) : Eff B :=
  fun w =>
    match m w with
    | (inl e, w') => (inl e, w')
    | (inr a, w') => k a w'
    end.

(** [await] of a promise that already settled. *)
Definition await {A} (r : Error + A) : Eff A :=
  match r with
  | inl e => throw e
  | inr a => ret a
  end.

Definition try_catch {A} (m : Eff A) (handler : Error -> Eff A) : Eff A :=
  fun w =>
    match m w with
    | (inl e, w') => handler e w'
    | (inr a, w') => (inr a, w')
    end.

Definition console_error (label : string) (e : Error) : Eff unit :=
  fun w => (inr tt, {| console := console w ++ [(label, e)] |}).

Notation "x <- m ;; k" := (bind m (fun x => k))
  (at level 61, m at next level, right associativity).
Notation "m ;;; k" := (bind m (fun _ => k))
  (at level 61, right associativity).

(** ** The handler *)

(** The message of the 400 response. *)
Definition invalid_input_message : string :=
  "Missing or invalid state, county, soc_code, or salary_value".

Section Analyze.
(** ECMAScript's [StringToNumber], the numeric reading of a string
    ([NaN] when it is not a numeric literal). *)
Variable StringToNumber : string -> float.

(** ECMAScript [ToNumber], which [Number(v)] and the arithmetic operators
    apply to their operands. *)
Definition ToNumber (v : jsval) : float :=
  match v with
  | JUndefined => nan
  | JNull => 0
  | JBool true => 1
  | JBool false => 0
  | JNumber x => x
  | JString s => StringToNumber s
  end.

(** The [levels] array built from the document. *)
Definition levels_of (data : WageDoc) : list Level :=
  [ {| key := "L1"; wageAnnual := l1_wage data |};
    {| key := "L2"; wageAnnual := l2_wage data |};
    {| key := "L3"; wageAnnual := l3_wage data |};
    {| key := "L4"; wageAnnual := l4_wage data |} ].

(** The callback of [levels.map], with [userSalaryAnnual] captured.  The
    wage is whatever the document holds; the operators [/] and [-] (also
    inside [toHourly]) read it through [ToNumber]. *)
Definition table_row (userSalaryAnnual : float) (lvl : Level) : Row :=
  let ratio := (userSalaryAnnual / ToNumber (wageAnnual lvl))%float in
  let status :=
    if (ratio <? 1)%float then below
    else if ((1 <=? ratio) && (ratio <? 1.1))%float then meets
    else exceeds in
  let diffAnnual :=
    match status with
    | below => (ToNumber (wageAnnual lvl) - userSalaryAnnual)%float
    | _ => 0%float
    end in
  {| level := key lvl;
     annual_wage := wageAnnual lvl;
     hourly_wage := toHourly (ToNumber (wageAnnual lvl));
     ratio := ratio;
     status := status;
     toReachAnnual := diffAnnual |}.

(** The validation guard of the handler, true when the request is
    rejected with status 400. *)
Definition rejected (state county soc_code : jsval) (salary_value : float) : bool :=
  negb (ToBoolean state) || negb (ToBoolean county) || negb (ToBoolean soc_code)
  || negb (ToBoolean (JNumber salary_value)) || isNaN salary_value.

(** The response object assembled after a document was found. *)
Definition response_of (state county soc_code : jsval) (salary_value : float)
    (mode : jsval) (userSalaryAnnual : float) (data : WageDoc) : Payload :=
  let levels := levels_of data in
  let table := map (table_row userSalaryAnnual) levels in
  {| input :=
       {| in_state := state;
          in_county := county;
          in_soc_code := soc_code;
          in_job_title := js_nullish (job_title data) JNull;
          in_salary_value := salary_value;
          in_mode := mode;
          salary_annual := userSalaryAnnual;
          salary_hourly := toHourly userSalaryAnnual |};
     wages :=
       {| w_l1 := l1_wage data; w_l2 := l2_wage data;
          w_l3 := l3_wage data; w_l4 := l4_wage data |};
     chart :=
       {| chart_levels := ["L1"; "L2"; "L3"; "L4"]%string;
          wagesAnnual := map wageAnnual levels;
          chart_userSalaryAnnual := userSalaryAnnual |};
     table := table |}.

(** [export async function POST(req)]. *)
Definition POST (db : Firestore) (req : NextRequest) : Eff NextResponse :=
  try_catch
    (body <- await (req_json req) ;;
     let state := b_state body in
     let county := b_county body in
     let soc_code := b_soc_code body in
     let salary_value := ToNumber (b_salary_value body) in
     let mode := js_or (b_mode body) (JString "annual") in
     if rejected state county soc_code salary_value then
       ret (JsonError 400 invalid_input_message)
     else
       let userSalaryAnnual := toAnnual salary_value mode in
       snapshot <- await (db state county soc_code) ;;
       match snapshot with
       | [] => ret (JsonError 404 "No matching wage record found for given filters")
       | data :: _ =>
           ret (JsonOk (response_of state county soc_code salary_value mode
                          userSalaryAnnual data))
       end)
    (fun error =>
       console_error "/api/analyze error:" error ;;;
       ret (JsonError 500
              (match message error with
               | Some m => m
               | None => "Unknown error"
               end))).

End Analyze.

(** ** Concrete requests used in the examples *)

(** A [StringToNumber] for the examples, none of which holds a string where
    a number is read. *)
Definition no_strings : string -> float := fun _ => nan.

Definition mk_doc (l1 l2 l3 l4 : float) : WageDoc :=
  {| l1_wage := JNumber l1; l2_wage := JNumber l2;
     l3_wage := JNumber l3; l4_wage := JNumber l4;
     job_title := JString "Software Developers" |}.

Definition db_with (d : WageDoc) : Firestore := fun _ _ _ => inr [d].

Definition mk_req (salary : jsval) (mode : jsval) : NextRequest :=
  {| req_json := inr {| b_state := JString "Texas (TX)";
                        b_county := JString "Randall County";
                        b_soc_code := JString "15-1252";
                        b_salary_value := salary;
                        b_mode := mode |} |}.

Definition w0 : World := {| console := [] |}.

(** The response to a request, from the empty console. *)
Definition respond (d : WageDoc) (salary mode : jsval) : Error + NextResponse :=
  fst (POST no_strings (db_with d) (mk_req salary mode) w0).

(** Scenario 1: levels 60000 .. 120000 against an annual salary of 90000. *)
Definition scenario1 : Error + NextResponse :=
  respond (mk_doc 60000 80000 100000 120000) (JNumber 90000) (JString "annual").

(** Scenario 3: an annual salary of -5. *)
Definition scenario3 : Error + NextResponse :=
  respond (mk_doc 60000 80000 100000 120000) (JNumber (-5)) (JString "annual").


(** The request and the store of scenario 1, and what the handler answers. *)
Definition request1 : NextRequest := mk_req (JNumber 90000) (JString "annual").

Definition store1 : Firestore := db_with (mk_doc 60000 80000 100000 120000).

Definition payload1 : Payload :=
  response_of no_strings (JString "Texas (TX)") (JString "Randall County")
    (JString "15-1252") 90000 (JString "annual") 90000
    (mk_doc 60000 80000 100000 120000).

Definition row_of (u : float) (k : string) (wage : jsval) : Row :=
  table_row no_strings u {| key := k; wageAnnual := wage |}.

(** A document and a request that put the four rows on both sides of the
    two thresholds: an annual salary of 110000 against the levels 50000
    (ratio 2.2), 100000 (ratio 1.1), 110000 (ratio 1) and 120000. *)
Definition doc_thresholds : WageDoc := mk_doc 50000 100000 110000 120000.

Definition request_thresholds : NextRequest :=
  mk_req (JNumber 110000) (JString "annual").

Definition body_thresholds : Body :=
  {| b_state := JString "Texas (TX)";
     b_county := JString "Randall County";
     b_soc_code := JString "15-1252";
     b_salary_value := JNumber 110000;
     b_mode := JString "annual" |}.

(** The wages of scenario 1 in a document without a job title. *)
Definition doc_untitled : WageDoc :=
  {| l1_wage := JNumber 60000; l2_wage := JNumber 80000;
     l3_wage := JNumber 100000; l4_wage := JNumber 120000;
     job_title := JUndefined |}.

Definition payload_untitled : Payload :=
  response_of no_strings (JString "Texas (TX)") (JString "Randall County")
    (JString "15-1252") 90000 (JString "annual") 90000 doc_untitled.

(** The same body with another [mode] field. *)
Definition with_mode (body : Body) (mode : jsval) : Body :=
  {| b_state := b_state body; b_county := b_county body;
     b_soc_code := b_soc_code body; b_salary_value := b_salary_value body;
     b_mode := mode |}.

(** A document whose level-1 wage is missing. *)
Definition doc_without_l1 : WageDoc :=
  {| l1_wage := JUndefined; l2_wage := JNumber 80000;
     l3_wage := JNumber 100000; l4_wage := JNumber 120000;
     job_title := JString "Software Developers" |}.

(** The HTTP status of a response. *)
Definition http_status_of (r : NextResponse) : Z :=
  match r with
  | JsonOk _ => 200
  | JsonError code _ => code
  end.

(** The [error] field of the 500 response for a caught error. *)
Definition caught_message (e : Error) : string :=
  match message e with
  | Some m => m
  | None => "Unknown error"
  end.

(** What the handler logs when it catches [e]. *)
Definition logged (e : Error) : string * Error := ("/api/analyze error:"%string, e).

(** A store whose query throws. *)
Definition db_throwing (e : Error) : Firestore := fun _ _ _ => inl e.

(** A store without a matching document. *)
Definition db_empty : Firestore := fun _ _ _ => inr [].

(** A body without a county. *)
Definition body_no_county : Body :=
  {| b_state := JString "Texas (TX)"; b_county := JUndefined;
     b_soc_code := JString "15-1252"; b_salary_value := JNumber 90000;
     b_mode := JString "annual" |}.

(** A request whose body cannot be parsed. *)
Definition bad_json (e : Error) : NextRequest := {| req_json := inl e |}.

(** ** Arrays and sets of the JavaScript runtime *)

(** [Array.prototype.sort(compareFn)]: the sort is stable, and for a
    consistent comparator its result is the stable insertion of the
    elements, from the last to the first, into the sorted rest. *)
Fixpoint sort_insert {A} (cmp : A -> A -> comparison) (x : A) (l : list A) : list A :=
  match l with
  | [] => [x]
  | y :: t =>
      match cmp x y with
      | Gt => y :: sort_insert cmp x t
      | _ => x :: y :: t
      end
  end.

Fixpoint js_sort {A} (cmp : A -> A -> comparison) (l : list A) : list A :=
  match l with
  | [] => []
  | x :: t => sort_insert cmp x (js_sort cmp t)
  end.

(** [set.add(x)] on a [Set<string>], kept in insertion order. *)
Definition set_add (x : string) (set : list string) : list string :=
  if existsb (String.eqb x) set then set else set ++ [x].

(** The order a comparator induces: [x] may stand before [y]. *)
Definition cmp_le {A} (cmp : A -> A -> comparison) (x y : A) : Prop :=
  cmp x y <> Gt.

(** ** The filters route *)

(** A document as the filters route reads it ([doc.data()] with the optional
    string fields of its type). *)
Record FilterDoc : Type := {
  d_state : option string;
  d_county : option string;
  d_soc_code : option string;
  d_job_title : option string
}.

Record Occupation : Type := { soc_code : string; occ_title : string }.

(** [getDocs] on the collection: it throws, or yields the documents. *)
Definition FilterStore : Type := Error + list FilterDoc.

(** The query [where("state", "==", state)] on the collection. *)
Definition where_state (state : string) (db : FilterStore) : FilterStore :=
  match db with
  | inl e => inl e
  | inr docs =>
      inr (filter (fun d => match d_state d with
                            | Some s => String.eqb s state
                            | None => false
                            end) docs)
  end.

Inductive FiltersResponse : Type :=
| StatesOk (states : list string)
| CountiesOk (state : string) (counties : list string)
| OccupationsOk (occupations : list Occupation)
| FiltersError (http_status : Z) (error : string).

(** Truthiness of a [string | undefined | null]. *)
Definition truthy (o : option string) : bool :=
  match o with
  | Some s => negb (String.eqb s "")
  | None => false
  end.

(** The [forEach] that adds the truthy values of a field to a set. *)
Definition distinct_values (field : FilterDoc -> option string)
    (docs : list FilterDoc) : list string :=
  fold_left (fun set d =>
               match field d with
               | Some s => if negb (String.eqb s "") then set_add s set else set
               | None => set
               end) docs [].

(** [Array.from(set).sort()]: the default order compares code units (a
    Rocq string holds the code units below 256). *)
Definition sorted_values (field : FilterDoc -> option string)
    (docs : list FilterDoc) : list string :=
  js_sort String.compare (distinct_values field docs).

Definition occupation_key (o : Occupation) : string :=
  (soc_code o ++ "::" ++ occ_title o)%string.

(** The callback of the [forEach] of the occupations branch, on the pair of
    [keySet] and [occupations]. *)
Definition occupation_step (acc : list string * list Occupation) (d : FilterDoc)
    : list string * list Occupation :=
  let '(keySet, occupations) := acc in
  match d_soc_code d, d_job_title d with
  | Some soc, Some title =>
      if String.eqb soc "" || String.eqb title "" then acc
      else
        let o := {| soc_code := soc; occ_title := title |} in
        if existsb (String.eqb (occupation_key o)) keySet then acc
        else (set_add (occupation_key o) keySet, occupations ++ [o])
  | _, _ => acc
  end.

Definition collect_occupations (docs : list FilterDoc)
    : list string * list Occupation :=
  fold_left occupation_step docs ([], []).

(** The occupations in the order of the response; [localeCompare] is the
    collation [a.localeCompare(b, "en", {sensitivity: "base"})]. *)
Definition sorted_occupations (localeCompare : string -> string -> comparison)
    (docs : list FilterDoc) : list Occupation :=
  js_sort (fun a b => localeCompare (occ_title a) (occ_title b))
    (snd (collect_occupations docs)).

(** [type === name] on the search parameter. *)
Definition is_type (type : option string) (name : string) : bool :=
  match type with Some t => String.eqb t name | None => false end.

(** [export async function GET(req)] of the filters route, on the two
    search parameters it reads. *)
Definition GET (localeCompare : string -> string -> comparison)
    (db : FilterStore) (type state : option string) : Eff FiltersResponse :=
  try_catch
    (if is_type type "states" then
       snapshot <- await db ;;
       ret (StatesOk (sorted_values d_state snapshot))
     else if is_type type "counties" then
       if negb (truthy state) then
         ret (FiltersError 400 "Missing 'state' parameter")
       else
         let st := match state with Some s => s | None => EmptyString end in
         snapshot <- await (where_state st db) ;;
         ret (CountiesOk st (sorted_values d_county snapshot))
     else if is_type type "occupations" then
       snapshot <- await db ;;
       ret (OccupationsOk (sorted_occupations localeCompare snapshot))
     else
       ret (FiltersError 400 "Invalid or missing type parameter"))
    (fun error =>
       console_error "Filters API error:" error ;;;
       ret (FiltersError 500 (caught_message error))).

Definition sample_docs : list FilterDoc :=
  [ {| d_state := Some "Texas (TX)"; d_county := Some "Randall County";
       d_soc_code := Some "15-1252"; d_job_title := Some "Software Developers" |};
    {| d_state := Some "California (CA)"; d_county := Some "Kern County";
       d_soc_code := Some "13-2071"; d_job_title := Some "Credit Counselors" |};
    {| d_state := Some "Texas (TX)"; d_county := Some "Bexar County";
       d_soc_code := Some "15-1252"; d_job_title := Some "Software Developers" |};
    {| d_state := Some ""; d_county := None;
       d_soc_code := None; d_job_title := Some "Untitled" |} ]%string.


(** A document that the occupations branch keeps, and the entry it gives. *)
Definition names_occupation (d : FilterDoc) (o : Occupation) : Prop :=
  d_soc_code d = Some (soc_code o) /\ d_job_title d = Some (occ_title o)
  /\ soc_code o <> ""%string /\ occ_title o <> ""%string.

(** ** JSON between the route and the page *)

(** [JSON.stringify] followed by [JSON.parse], on the value of a property:
    a number that is not finite becomes [null], the negative zero becomes
    0, and an [undefined] property is left out (it reads as [undefined]). *)
Definition json_prop (v : jsval) : jsval :=
  match v with
  | JNumber x =>
      if is_finite x then (if (x =? 0)%float then JNumber 0 else JNumber x)
      else JNull
  | _ => v
  end.

(** The same on an array element, where [undefined] becomes [null]. *)
Definition json_elem (v : jsval) : jsval :=
  match v with
  | JUndefined => JNull
  | _ => json_prop v
  end.

(** A row of the table as the page receives it. *)
Record ClientRow : Type := {
  c_level : string;
  c_annual_wage : jsval;
  c_hourly_wage : jsval;
  c_ratio : jsval;
  c_status : Status;
  c_toReachAnnual : jsval
}.

Definition client_row (r : Row) : ClientRow :=
  {| c_level := level r;
     c_annual_wage := json_prop (annual_wage r);
     c_hourly_wage := json_prop (JNumber (hourly_wage r));
     c_ratio := json_prop (JNumber (ratio r));
     c_status := status r;
     c_toReachAnnual := json_prop (JNumber (toReachAnnual r)) |}.

(** ** The page *)

Record SelectOption : Type := { value : string; label : string }.

Inductive SalaryMode : Type := ModeAnnual | ModeHourly.

Definition mode_string (m : SalaryMode) : string :=
  match m with
  | ModeAnnual => "annual"
  | ModeHourly => "hourly"
  end.

(** The state of [Home] that [handleAnalyze] reads and writes. *)
Record PageState : Type := {
  selectedState : option SelectOption;
  selectedCounty : option SelectOption;
  selectedOccupation : option SelectOption;
  salaryValue : string;
  salaryMode : SalaryMode;
  analyzeLoading : bool;
  analyzeError : option string;
  resultsTable : option (list ClientRow);
  chartLevels : option (list string);
  chartWagesAnnual : option (list jsval);
  chartUserSalaryAnnual : option float
}.

(** [!!numericSalary && !Number.isNaN(numericSalary) && numericSalary > 0],
    the test of the effect that starts the analysis. *)
Definition hasValidSalary (numericSalary : float) : bool :=
  ToBoolean (JNumber numericSalary) && negb (isNaN numericSalary)
  && (0 <? numericSalary)%float.

(** [!numericSalary || Number.isNaN(numericSalary) || numericSalary <= 0],
    the test of [handleAnalyze]. *)
Definition salary_refused (numericSalary : float) : bool :=
  negb (ToBoolean (JNumber numericSalary)) || isNaN numericSalary
  || (numericSalary <=? 0)%float.

(** The five setters called first, then an error message. *)
Definition refuse (st : PageState) (msg : option string) : PageState :=
  {| selectedState := selectedState st;
     selectedCounty := selectedCounty st;
     selectedOccupation := selectedOccupation st;
     salaryValue := salaryValue st;
     salaryMode := salaryMode st;
     analyzeLoading := analyzeLoading st;
     analyzeError := msg;
     resultsTable := None;
     chartLevels := None;
     chartWagesAnnual := None;
     chartUserSalaryAnnual := None |}.

(** The body that [JSON.stringify] sends, as [req.json()] reads it. *)
Definition request_body (s c o : SelectOption) (numericSalary : float)
    (m : SalaryMode) : Body :=
  {| b_state := JString (value s);
     b_county := JString (value c);
     b_soc_code := JString (value o);
     b_salary_value := json_prop (JNumber numericSalary);
     b_mode := JString (mode_string m) |}.

(** A number or [null] read from the reply. *)
Definition number_or_null (v : jsval) : option float :=
  match v with
  | JNumber x => Some x
  | _ => None
  end.

(** The state after the [catch] and the [finally]: the results stay cleared,
    the error is the message of what was thrown. *)
Definition finish (st : PageState) (msg : option string) : PageState :=
  {| selectedState := selectedState st;
     selectedCounty := selectedCounty st;
     selectedOccupation := selectedOccupation st;
     salaryValue := salaryValue st;
     salaryMode := salaryMode st;
     analyzeLoading := false;
     analyzeError := msg;
     resultsTable := None;
     chartLevels := None;
     chartWagesAnnual := None;
     chartUserSalaryAnnual := None |}.

(** What follows the [await]s: the reply is an error thrown by [fetch] or
    [res.json()], or the response of the route. *)
Definition after_fetch (st : PageState) (reply : Error + NextResponse) : PageState :=
  match reply with
  | inr (JsonOk p) =>
      {| selectedState := selectedState st;
         selectedCounty := selectedCounty st;
         selectedOccupation := selectedOccupation st;
         salaryValue := salaryValue st;
         salaryMode := salaryMode st;
         analyzeLoading := false;
         analyzeError := None;
         resultsTable := Some (map client_row (table p));
         chartLevels := Some (chart_levels (chart p));
         chartWagesAnnual := Some (map json_elem (wagesAnnual (chart p)));
         chartUserSalaryAnnual :=
           number_or_null (json_prop (JNumber (chart_userSalaryAnnual (chart p)))) |}
  | inr (JsonError _ error) =>
      finish st (Some (if String.eqb error "" then "Analyze request failed"%string
                       else error))
  | inl err => finish st (message err)
  end.

(** [const handleAnalyze = async () => ...]; [fetch] is the request to
    [/api/analyze] with its two [await]s. *)
Definition handleAnalyze (StringToNumber : string -> float)
    (fetch : Body -> Error + NextResponse) (st : PageState) : PageState :=
  match selectedState st, selectedCounty st, selectedOccupation st with
  | Some s, Some c, Some o =>
      let numericSalary := ToNumber StringToNumber (JString (salaryValue st)) in
      if salary_refused numericSalary then
        refuse st (Some "Please enter a valid salary value."%string)
      else
        after_fetch st (fetch (request_body s c o numericSalary (salaryMode st)))
  | _, _, _ =>
      refuse st (Some "Please select state, county, and occupation."%string)
  end.

(** The request as the route answers it. *)
Definition via_route (StringToNumber : string -> float) (db : Firestore) (w : World)
    (body : Body) : Error + NextResponse :=
  fst (POST StringToNumber db {| req_json := inr body |} w).

(** ** The chart *)

Record BarTrace : Type := {
  bar_x : list string;
  bar_y : list jsval;
  bar_colors : list string
}.

Record LineTrace : Type := { line_x : list string; line_y : list float }.

(** [WageBarChart]: [None] is the [null] it returns, otherwise the two
    traces given to [Plot]. *)
Definition WageBarChart (levels : list string) (wagesAnnual : list jsval)
    (userSalaryAnnual : float) : option (BarTrace * LineTrace) :=
  if (Nat.eqb (List.length levels) 0) || (Nat.eqb (List.length wagesAnnual) 0) then None
  else
    Some ({| bar_x := levels;
             bar_y := wagesAnnual;
             bar_colors := ["rgb(56, 189, 248)"; "rgb(34, 197, 94)";
                            "rgb(250, 204, 21)"; "rgb(248, 113, 113)"]%string |},
          {| line_x := [hd EmptyString levels; last levels EmptyString];
             line_y := [userSalaryAnnual; userSalaryAnnual] |}).

(** The condition under which [Home] renders the table and the chart. *)
Definition results_shown (st : PageState) : bool :=
  match resultsTable st, chartLevels st, chartWagesAnnual st, chartUserSalaryAnnual st with
  | Some _, Some _, Some _, Some _ => true
  | _, _, _, _ => false
  end.

(** ** The results block of [Home]

    Under that condition the JSX first maps the rows of the table to
    [<tr>] elements and then places [<WageBarChart>].  The callback of
    [resultsTable.map] calls methods on three fields of the row; a call on
    a value that has no such method is a [TypeError], which ends the
    render of [Home]. *)

(** [v.toFixed(2)] needs a number: [null] and [undefined] have no
    properties, strings and booleans have no [toFixed]. *)
Definition has_toFixed (v : jsval) : bool :=
  match v with
  | JNumber _ => true
  | _ => false
  end.

(** [v.toLocaleString(...)] exists on every value except [null] and
    [undefined]. *)
Definition has_toLocaleString (v : jsval) : bool :=
  match v with
  | JUndefined | JNull => false
  | _ => true
  end.

(** The callback of [resultsTable.map]: [true] when the row is rendered,
    [false] when it throws.  It calls [row.hourly_wage.toFixed(2)], then
    [row.annual_wage.toLocaleString(...)], then [(row.ratio * 100).toFixed(1)]
    (a product is always a number), and [row.toReachAnnual.toLocaleString(...)]
    only when the status is ["below"]. *)
Definition row_renders (row : ClientRow) : bool :=
  has_toFixed (c_hourly_wage row)
  && has_toLocaleString (c_annual_wage row)
  && match c_status row with
     | below => has_toLocaleString (c_toReachAnnual row)
     | _ => true
     end.

(** What the results block comes to: nothing (the condition is false), a
    [TypeError] thrown by a row of the table, or the table (its rows named
    by their level) with what [WageBarChart] returns. *)
Inductive Rendering : Type :=
| NoResults
| RenderError
| Results (rows : list string) (chart_drawn : option (BarTrace * LineTrace)).

Definition render_results (st : PageState) : Rendering :=
  match resultsTable st, chartLevels st, chartWagesAnnual st, chartUserSalaryAnnual st with
  | Some rows, Some levels, Some wages, Some salary =>
      if forallb row_renders rows
      then Results (map c_level rows) (WageBarChart levels wages salary)
      else RenderError
  | _, _, _, _ => NoResults
  end.

(** A page with the selections of scenario 1 and the salary text "90000",
    and a numeric reading of that text. *)
Definition reads_90000 : string -> float :=
  fun s => if String.eqb s "90000" then 90000%float else nan.

Definition option_of (v : string) : SelectOption := {| value := v; label := v |}.

Definition page1 : PageState :=
  {| selectedState := Some (option_of "Texas (TX)");
     selectedCounty := Some (option_of "Randall County");
     selectedOccupation := Some (option_of "15-1252");
     salaryValue := "90000";
     salaryMode := ModeAnnual;
     analyzeLoading := false;
     analyzeError := None;
     resultsTable := None;
     chartLevels := None;
     chartWagesAnnual := None;
     chartUserSalaryAnnual := None |}.

(** ** Classes of binary64 values used in the statements *)

(** Specification-level values that are at least 1: [+Infinity], or a
    positive mantissa of at least [2 ^ 52] at an exponent of at least -52. *)
Definition at_least_one (x : spec_float) : Prop :=
  match x with
  | S754_infinity false => True
  | S754_finite false m e => (-52 <= e /\ 2 ^ 52 <= Zpos m)%Z
  | _ => False
  end.

(** Values with the sign bit set: [-0], the negative numbers, [-Infinity]. *)
Definition sf_neg (x : spec_float) : Prop :=
  match x with
  | S754_zero true | S754_infinity true | S754_finite true _ _ => True
  | _ => False
  end.

(** Values with the sign bit clear: [+0], the positive numbers, [+Infinity]. *)
Definition sf_nonneg (x : spec_float) : Prop :=
  match x with
  | S754_zero false | S754_infinity false | S754_finite false _ _ => True
  | _ => False
  end.

(** Finite values with the sign bit clear: [+0] and the positive numbers. *)
Definition sf_finite_nonneg (x : spec_float) : Prop :=
  match x with
  | S754_zero false | S754_finite false _ _ => True
  | _ => False
  end.

(** ** The number a binary64 value stands for *)

(** The rational number denoted by a finite binary64 value: the signed
    mantissa times [2 ^ e]; both zeros denote 0.  ([NaN] and the infinities
    denote no number; 0 is returned for them and no statement uses it.) *)
Definition SF2Q (x : spec_float) : Q :=
  match x with
  | S754_finite s m e => inject_Z (cond_Zopp s (Zpos m)) * 2 ^ e
  | _ => 0
  end.

Definition Prim2Q (x : float) : Q := SF2Q (Prim2SF x).

(** * Properties *)

(** ** Binary64 arithmetic

    Facts about the library's specification of binary64 ([SpecFloat]) that
    the comparison needs: a quotient of two positive numbers is at least 1
    when the numerator is at least the denominator, and a difference takes
    the sign of the exact difference.  They hold for every mantissa and
    exponent, canonical or not. *)

Section Binary64.
Local Open Scope Z_scope.

Lemma iter_pos_invariant {A} (f : A -> A) (P : A -> Prop) :
  (forall x, P x -> P (f x)) ->
  forall p x, P x -> P (iter_pos f p x).
Proof.
  intros Hf p. induction p as [p IH | p IH | ]; intros x Hx; simpl; auto.
Qed.

Lemma digits2_pos_bounds (m : positive) :
  2 ^ (Zpos (digits2_pos m) - 1) <= Zpos m < 2 ^ Zpos (digits2_pos m).
Proof.
  induction m as [m IH | m IH | ]; simpl digits2_pos.
  - rewrite Pos2Z.inj_succ.
    replace (Z.succ (Zpos (digits2_pos m)) - 1) with (Z.succ (Zpos (digits2_pos m) - 1)) by lia.
    rewrite !Z.pow_succ_r by lia. lia.
  - rewrite Pos2Z.inj_succ.
    replace (Z.succ (Zpos (digits2_pos m)) - 1) with (Z.succ (Zpos (digits2_pos m) - 1)) by lia.
    rewrite !Z.pow_succ_r by lia. lia.
  - simpl. lia.
Qed.

Lemma shr_1_m (mrs : shr_record) :
  0 <= shr_m mrs -> shr_m (shr_1 mrs) = shr_m mrs / 2.
Proof.
  destruct mrs as [m r s]. simpl. intros Hm.
  destruct m as [ | [p | p | ] | p ]; simpl; try lia.
  - reflexivity.
  - apply Z.div_unique with 1; lia.
  - apply Z.div_unique with 0; lia.
  - reflexivity.
Qed.

Lemma shr_1_nonneg (mrs : shr_record) :
  0 <= shr_m mrs -> 0 <= shr_m (shr_1 mrs).
Proof.
  intros Hm. rewrite shr_1_m by assumption. apply Z.div_pos; lia.
Qed.

Lemma iter_shr_1_nonneg p mrs :
  0 <= shr_m mrs -> 0 <= shr_m (iter_pos shr_1 p mrs).
Proof.
  revert mrs.
  apply (iter_pos_invariant shr_1 (fun x => 0 <= shr_m x) shr_1_nonneg).
Qed.

(** A lower bound survives a right shift: if [2 ^ (a + p) <= m] then
    [2 ^ a] bounds [m] shifted right by [p] bits. *)
Lemma iter_shr_1_lower a p mrs :
  0 <= a ->
  2 ^ (a + Zpos p) <= shr_m mrs ->
  2 ^ a <= shr_m (iter_pos shr_1 p mrs).
Proof.
  intros Ha.
  revert mrs a Ha.
  induction p as [p IH | p IH | ]; intros mrs a Ha Hm; simpl.
  - apply IH; [lia|]. apply IH; [lia|].
    rewrite shr_1_m.
    + apply Z.div_le_lower_bound; [lia|].
      rewrite <- Z.pow_succ_r by lia.
      replace (Z.succ (a + Zpos p + Zpos p)) with (a + Zpos p~1) by lia. exact Hm.
    + pose proof (Z.pow_nonneg 2 (a + Zpos p~1)). lia.
  - apply IH; [lia|]. apply IH; [lia|].
    replace (a + Zpos p + Zpos p) with (a + Zpos p~0) by lia. exact Hm.
  - rewrite shr_1_m.
    + apply Z.div_le_lower_bound; [lia|].
      rewrite <- Z.pow_succ_r by lia. exact Hm.
    + pose proof (Z.pow_nonneg 2 (a + 1)). lia.
Qed.

Lemma pow52_eq : 2 ^ 52 = 4503599627370496.
Proof. reflexivity. Qed.

Lemma pow52_pos : 0 < 2 ^ 52.
Proof. reflexivity. Qed.

Lemma shr_m_of_loc m l : shr_m (shr_record_of_loc m l) = m.
Proof. destruct l as [ | [ | | ] ]; reflexivity. Qed.

Lemma digits_ge_53 (p : positive) :
  2 ^ 52 <= Zpos p -> 53 <= Zpos (digits2_pos p).
Proof.
  intros Hp. pose proof (digits2_pos_bounds p) as [_ Hu].
  assert (Hlt : 2 ^ 52 < 2 ^ Zpos (digits2_pos p)) by lia.
  apply Z.pow_lt_mono_r_iff in Hlt; lia.
Qed.

Lemma shr_fexp_lower m e l :
  2 ^ 52 <= m -> 1 <= Zdigits2 m + e ->
  2 ^ 52 <= shr_m (fst (shr_fexp prec emax m e l))
  /\ -52 <= snd (shr_fexp prec emax m e l).
Proof.
  intros Hm He.
  destruct m as [ | p | p ]; try (pose proof pow52_pos; lia).
  simpl Zdigits2 in *.
  pose proof (digits_ge_53 p Hm) as Hd.
  pose proof (digits2_pos_bounds p) as [Hlo _].
  unfold shr_fexp, fexp, SpecFloat.emin, prec, emax. simpl Zdigits2.
  rewrite Z.max_l by lia.
  unfold shr.
  destruct (Zpos (digits2_pos p) + e - 53 - e) as [ | n | n ] eqn:Hn.
  - cbn [fst snd]. rewrite shr_m_of_loc. split; [exact Hm | lia].
  - cbn [fst snd]. split; [ | lia].
    apply iter_shr_1_lower; [lia | ].
    rewrite shr_m_of_loc.
    replace (52 + Zpos n) with (Zpos (digits2_pos p) - 1) by lia. exact Hlo.
  - lia.
Qed.

Lemma round_nearest_even_ge m l : m <= round_nearest_even m l.
Proof.
  destruct l as [ | [ | | ] ]; simpl; try lia.
  destruct (Z.even m); lia.
Qed.

Lemma binary_round_aux_lower m e l :
  2 ^ 52 <= m -> 1 <= Zdigits2 m + e ->
  at_least_one (binary_round_aux prec emax false m e l).
Proof.
  intros Hm He.
  unfold binary_round_aux.
  pose proof (shr_fexp_lower m e l Hm He) as [H1 H2].
  destruct (shr_fexp prec emax m e l) as [mrs' e'] eqn:E1. cbn [fst snd] in H1, H2.
  set (m1 := round_nearest_even (shr_m mrs') (loc_of_shr_record mrs')).
  assert (Hm1 : 2 ^ 52 <= m1).
  { unfold m1. pose proof (round_nearest_even_ge (shr_m mrs') (loc_of_shr_record mrs')). lia. }
  assert (Hd1 : 1 <= Zdigits2 m1 + e').
  { destruct m1 as [ | p | p ]; try (pose proof pow52_pos; lia).
    cbn [Zdigits2]. pose proof (digits_ge_53 p Hm1). lia. }
  pose proof (shr_fexp_lower m1 e' loc_Exact Hm1 Hd1) as [H3 H4].
  destruct (shr_fexp prec emax m1 e' loc_Exact) as [mrs'' e''] eqn:E2. cbn [fst snd] in H3, H4.
  destruct (shr_m mrs'') as [ | q | q ]; try (pose proof pow52_pos; lia).
  destruct (e'' <=? emax - prec); cbn [at_least_one]; auto.
Qed.

Lemma compare_cont_Z (m c : positive) :
  Pos.compare_cont Eq m c = (Zpos m ?= Zpos c).
Proof.
  rewrite Pos.compare_cont_spec. unfold Pos.switch_Eq. cbn [Z.compare].
  now destruct (m ?= c)%positive.
Qed.

Lemma at_least_one_not_lt x :
  at_least_one x -> SFltb x (S754_finite false 4503599627370496 (-52)) = false.
Proof.
  destruct x as [ s | [ | ] | | [ | ] m e ]; cbn [at_least_one];
    intros H; try contradiction.
  - reflexivity.
  - destruct H as [He Hm]. unfold SFltb, SFcompare.
    destruct (Z.compare_spec e (-52)); try reflexivity; [ | exfalso; lia].
    rewrite compare_cont_Z. rewrite pow52_eq in Hm.
    destruct (Z.compare_spec (Zpos m) (Zpos 4503599627370496)); try reflexivity.
    exfalso; lia.
Qed.

Lemma pow2_pos n : 0 <= n -> 0 < 2 ^ n.
Proof. intros. apply Z.pow_pos_nonneg; lia. Qed.

Lemma pow2_split a b : 0 <= a -> 0 <= b -> 2 ^ (a + b) = 2 ^ a * 2 ^ b.
Proof. intros. apply Z.pow_add_r; assumption. Qed.

Lemma Zdigits2_gt_of_pow q n :
  0 <= n -> 2 ^ n <= q -> n < Zdigits2 q.
Proof.
  intros Hn Hq. pose proof (pow2_pos n Hn).
  destruct q as [ | p | p ]; try lia.
  cbn [Zdigits2]. pose proof (digits2_pos_bounds p) as [_ Hu].
  apply (Z.pow_lt_mono_r_iff 2); lia.
Qed.

Lemma SFdiv_ge_one (m1 m2 : positive) (e1 e2 : Z) :
  Zpos m2 * 2 ^ (e2 - Z.min e1 e2) <= Zpos m1 * 2 ^ (e1 - Z.min e1 e2) ->
  at_least_one (SFdiv prec emax (S754_finite false m1 e1) (S754_finite false m2 e2)).
Proof.
  intros Hle.
  set (ez := Z.min e1 e2) in *.
  set (d1 := Zpos (digits2_pos m1)).
  set (d2 := Zpos (digits2_pos m2)).
  pose proof (digits2_pos_bounds m1) as [Hl1 Hu1]. fold d1 in Hl1, Hu1.
  pose proof (digits2_pos_bounds m2) as [Hl2 Hu2]. fold d2 in Hl2, Hu2.
  assert (Hd1 : 1 <= d1) by (unfold d1; lia).
  assert (Hd2 : 1 <= d2) by (unfold d2; lia).
  assert (Hz1 : 0 <= e1 - ez) by (unfold ez; lia).
  assert (Hz2 : 0 <= e2 - ez) by (unfold ez; lia).
  (* the numerator has at least the magnitude of the denominator *)
  assert (Hk : 0 <= d1 + e1 - (d2 + e2)).
  { assert (Hlt : 2 ^ (d2 - 1 + (e2 - ez)) < 2 ^ (d1 + (e1 - ez))).
    { rewrite !pow2_split by lia.
      pose proof (pow2_pos (e1 - ez) Hz1). pose proof (pow2_pos (e2 - ez) Hz2).
      nia. }
    apply Z.pow_lt_mono_r_iff in Hlt; lia. }
  unfold SFdiv, SFdiv_core_binary. cbn [xorb Zdigits2]. fold d1 d2.
  unfold fexp, SpecFloat.emin, prec, emax.
  rewrite Z.max_l by lia.
  set (e' := Z.min (d1 + e1 - (d2 + e2) - 53) (e1 - e2)).
  set (s := e1 - e2 - e').
  assert (Hs : 0 <= s) by (unfold s, e'; lia).
  assert (Hs' : 53 - d1 + d2 <= s) by (unfold s, e'; lia).
  set (m' := match s with Z0 => Zpos m1 | Zpos _ => Z.shiftl (Zpos m1) s | Zneg _ => 0 end).
  assert (Hm' : m' = Zpos m1 * 2 ^ s).
  { unfold m'. destruct s as [ | p | p ] eqn:Es.
    - rewrite Z.pow_0_r. lia.
    - apply Z.shiftl_mul_pow2. lia.
    - lia. }
  clearbody m'.
  pose proof (Z.div_eucl_eq m' (Zpos m2)) as Hdiv.
  unfold Z.div. 
  assert (Hq : fst (Z.div_eucl m' (Zpos m2)) = m' / Zpos m2) by reflexivity.
  destruct (Z.div_eucl m' (Zpos m2)) as [q r]. cbn [fst] in Hq. subst q.
  pose proof (pow2_pos s Hs) as Hps.
  (* the quotient has at least 53 digits *)
  assert (Hq52 : 2 ^ 52 <= m' / Zpos m2).
  { apply Z.div_le_lower_bound; [lia | ].
    assert (Hb : 2 ^ (d2 + 52) <= 2 ^ (d1 - 1 + s)) by (apply Z.pow_le_mono_r; lia).
    rewrite !pow2_split in Hb by lia.
    rewrite Hm'. nia. }
  apply binary_round_aux_lower; [exact Hq52 | ].
  destruct (Z_le_gt_dec (-52) e') as [He' | He'].
  - pose proof (Zdigits2_gt_of_pow (m' / Zpos m2) 52 ltac:(lia) Hq52). lia.
  - (* the quotient is at least [2 ^ (- e')] *)
    assert (Hqe : 2 ^ (- e') <= m' / Zpos m2).
    { apply Z.div_le_lower_bound; [lia | ].
      set (t := - e' - (e2 - ez)).
      assert (Ht : 0 <= t) by (unfold t, e', ez; lia).
      pose proof (pow2_pos t Ht) as Hpt.
      assert (E2 : 2 ^ (- e') = 2 ^ (e2 - ez) * 2 ^ t).
      { rewrite <- pow2_split by lia. f_equal. unfold t. lia. }
      assert (E1 : 2 ^ s = 2 ^ (e1 - ez) * 2 ^ t).
      { rewrite <- pow2_split by lia. f_equal. unfold t, s. lia. }
      rewrite Hm', E1, E2. nia. }
    pose proof (Zdigits2_gt_of_pow (m' / Zpos m2) (- e') ltac:(lia) Hqe). lia.
Qed.

Lemma shl_align_fst (m : positive) (e ez : Z) :
  ez <= e -> Zpos (fst (shl_align m e ez)) = Zpos m * 2 ^ (e - ez).
Proof.
  intros Hle. unfold shl_align.
  destruct (ez - e) as [ | d | d ] eqn:Hd; cbn [fst].
  - replace (e - ez) with 0 by lia. rewrite Z.pow_0_r. lia.
  - lia.
  - replace (e - ez) with (Zpos d) by lia.
    change (Pos.iter xO m d) with (shift_pos d m).
    rewrite shift_pos_correct. change (Z.pow_pos 2 d) with (2 ^ Zpos d). lia.
Qed.

Lemma shr_fexp_nonneg m e l :
  0 <= m -> 0 <= shr_m (fst (shr_fexp prec emax m e l)).
Proof.
  intros Hm. unfold shr_fexp, shr.
  destruct (fexp prec emax (Zdigits2 m + e) - e) as [ | n | n ]; cbn [fst].
  - now rewrite shr_m_of_loc.
  - apply iter_shr_1_nonneg. now rewrite shr_m_of_loc.
  - now rewrite shr_m_of_loc.
Qed.

Lemma binary_round_aux_nonneg m e l :
  0 <= m -> sf_nonneg (binary_round_aux prec emax false m e l).
Proof.
  intros Hm. unfold binary_round_aux.
  pose proof (shr_fexp_nonneg m e l Hm) as H1.
  destruct (shr_fexp prec emax m e l) as [mrs' e']. cbn [fst] in H1.
  set (m1 := round_nearest_even (shr_m mrs') (loc_of_shr_record mrs')).
  assert (Hm1 : 0 <= m1).
  { unfold m1. pose proof (round_nearest_even_ge (shr_m mrs') (loc_of_shr_record mrs')). lia. }
  pose proof (shr_fexp_nonneg m1 e' loc_Exact Hm1) as H2.
  destruct (shr_fexp prec emax m1 e' loc_Exact) as [mrs'' e'']. cbn [fst] in H2.
  destruct (shr_m mrs'') as [ | q | q ]; try lia.
  - exact I.
  - destruct (e'' <=? emax - prec); exact I.
Qed.

Lemma binary_round_nonneg m e : sf_nonneg (binary_round prec emax false m e).
Proof.
  unfold binary_round.
  destruct (shl_align m e _) as [mz ez].
  apply binary_round_aux_nonneg. lia.
Qed.

Lemma SFsub_nonneg (m1 m2 : positive) (e1 e2 : Z) :
  Zpos m2 * 2 ^ (e2 - Z.min e1 e2) <= Zpos m1 * 2 ^ (e1 - Z.min e1 e2) ->
  sf_nonneg (SFsub prec emax (S754_finite false m1 e1) (S754_finite false m2 e2)).
Proof.
  intros Hle. unfold SFsub. cbn [cond_Zopp].
  rewrite !shl_align_fst by lia.
  destruct (Zpos m1 * 2 ^ (e1 - Z.min e1 e2) - Zpos m2 * 2 ^ (e2 - Z.min e1 e2))
    as [ | p | p ] eqn:Hd; try lia; cbn [binary_normalize].
  - exact I.
  - apply binary_round_nonneg.
Qed.

Lemma SFmul_nonneg x y :
  sf_nonneg x -> sf_nonneg y -> SFmul prec emax x y = S754_nan \/ sf_nonneg (SFmul prec emax x y).
Proof.
  destruct x as [ [ | ] | [ | ] | | [ | ] mx ex ]; cbn [sf_nonneg]; try contradiction;
  destruct y as [ [ | ] | [ | ] | | [ | ] my ey ]; cbn [sf_nonneg]; try contradiction;
  intros _ _; cbn [SFmul xorb];
  first [ left; reflexivity
        | right; exact I
        | right; apply binary_round_aux_nonneg; lia ].
Qed.

(** The comparison that decides "below", against the gap of that row. *)
Lemma below_gap_nonneg (u l : spec_float) :
  (u = S754_nan \/ sf_nonneg u) -> sf_nonneg l ->
  SFltb (SFdiv prec emax u l) (S754_finite false 4503599627370496 (-52)) = true ->
  sf_nonneg (SFsub prec emax l u).
Proof.
  intros [-> | Hu] Hl Hlt.
  - destruct l; discriminate Hlt.
  - destruct u as [ [ | ] | [ | ] | | [ | ] mu eu ]; cbn [sf_nonneg] in Hu; try contradiction;
    destruct l as [ [ | ] | [ | ] | | [ | ] ml el ]; cbn [sf_nonneg] in Hl; try contradiction;
    try discriminate Hlt; try exact I.
    destruct (Z_le_gt_dec (Zpos ml * 2 ^ (el - Z.min eu el)) (Zpos mu * 2 ^ (eu - Z.min eu el)))
      as [Hge | Hgt].
    + apply SFdiv_ge_one in Hge. apply at_least_one_not_lt in Hge. congruence.
    + apply SFsub_nonneg. rewrite (Z.min_comm el eu). lia.
Qed.

(** *** The error of one rounding

    The value of a finite number [m * 2 ^ e] is taken in the rationals
    ([SF2Q]).  [binary_round_aux] shifts the mantissa right until it fits
    the format, rounds it to one of the two neighbouring mantissas, and
    shifts once more if the rounding carried: the result is within one unit
    of its last place of the value that was rounded. *)

Lemma Qpow2_pos (e : Z) : (0 < 2 ^ e)%Q.
Proof. apply Qpower_0_lt. reflexivity. Qed.

Lemma Qpow2_add (a b : Z) : (2 ^ (a + b) == 2 ^ a * 2 ^ b)%Q.
Proof. apply Qpower_plus. discriminate. Qed.

Lemma Qpow2_Z (n : Z) : 0 <= n -> (2 ^ n == inject_Z (2 ^ n))%Q.
Proof. intros Hn. symmetry. apply (Zpower_Qpower 2 n Hn). Qed.

Lemma Qpow2_ge_1 (n : Z) : 0 <= n -> (1 <= 2 ^ n)%Q.
Proof.
  intros Hn. rewrite (Qpow2_Z n Hn).
  change 1%Q with (inject_Z 1). rewrite <- Zle_Qle.
  pose proof (pow2_pos n Hn). lia.
Qed.

Lemma Qpow2_le (a b : Z) : a <= b -> (2 ^ a <= 2 ^ b)%Q.
Proof.
  intros Hab. replace b with (a + (b - a)) by lia. rewrite Qpow2_add.
  pose proof (Qpow2_pos a). pose proof (Qpow2_ge_1 (b - a) ltac:(lia)). nra.
Qed.

Lemma Qpow2_succ (a : Z) : (2 ^ (a + 1) == 2 * 2 ^ a)%Q.
Proof. rewrite Qpow2_add. change (2 ^ 1)%Q with 2%Q. lra. Qed.

(** A right shift is a division by a power of two. *)
Lemma iter_shr_1_div p mrs :
  0 <= shr_m mrs -> shr_m (iter_pos shr_1 p mrs) = shr_m mrs / 2 ^ Zpos p.
Proof.
  revert mrs.
  induction p as [p IH | p IH | ]; intros mrs Hm; simpl iter_pos.
  - rewrite IH by (apply iter_shr_1_nonneg, shr_1_nonneg, Hm).
    rewrite IH by (apply shr_1_nonneg, Hm).
    rewrite shr_1_m by exact Hm.
    pose proof (pow2_pos (Zpos p) ltac:(lia)).
    assert (E : 2 ^ Zpos p~1 = 2 * 2 ^ Zpos p * 2 ^ Zpos p).
    { replace (Zpos p~1) with (1 + Zpos p + Zpos p) by lia.
      rewrite !pow2_split by lia. reflexivity. }
    rewrite !Z.div_div by lia. rewrite E. f_equal. ring.
  - rewrite IH by (apply iter_shr_1_nonneg, Hm).
    rewrite IH by exact Hm.
    pose proof (pow2_pos (Zpos p) ltac:(lia)).
    rewrite Z.div_div by lia.
    f_equal. rewrite <- pow2_split by lia. f_equal. lia.
  - rewrite shr_1_m by exact Hm. reflexivity.
Qed.

(** What [shr_fexp] returns: the mantissa divided by [2 ^ n], the exponent
    raised by [n], where [n] is the number of bits in excess. *)
Lemma shr_fexp_spec m e l :
  0 <= m ->
  shr_m (fst (shr_fexp prec emax m e l))
  = m / 2 ^ Z.max 0 (fexp prec emax (Zdigits2 m + e) - e)
  /\ snd (shr_fexp prec emax m e l)
     = e + Z.max 0 (fexp prec emax (Zdigits2 m + e) - e).
Proof.
  intros Hm. unfold shr_fexp, shr.
  destruct (fexp prec emax (Zdigits2 m + e) - e) as [ | n | n ]; cbn [fst snd].
  - rewrite shr_m_of_loc. change (Z.max 0 0) with 0. rewrite Z.pow_0_r, Z.div_1_r. lia.
  - rewrite iter_shr_1_div by now rewrite shr_m_of_loc.
    rewrite shr_m_of_loc. rewrite Z.max_r by lia. split; reflexivity.
  - rewrite shr_m_of_loc. rewrite Z.max_l by lia. rewrite Z.pow_0_r, Z.div_1_r. lia.
Qed.

Lemma Zdigits2_le (m k : Z) : 0 <= m -> 0 <= k -> m < 2 ^ k -> Zdigits2 m <= k.
Proof.
  intros Hm Hk Hlt. destruct m as [ | p | p ]; cbn [Zdigits2]; try lia.
  pose proof (digits2_pos_bounds p) as [Hlo _].
  assert (H : 2 ^ (Zpos (digits2_pos p) - 1) < 2 ^ k) by lia.
  apply Z.pow_lt_mono_r_iff in H; lia.
Qed.

Lemma Zdigits2_upper (m : Z) : 0 <= m -> m < 2 ^ Zdigits2 m.
Proof.
  intros Hm. destruct m as [ | p | p ]; cbn [Zdigits2]; try lia.
  apply digits2_pos_bounds.
Qed.

Lemma Zdigits2_nonneg (m : Z) : 0 <= Zdigits2 m.
Proof. destruct m; cbn [Zdigits2]; lia. Qed.

Lemma fexp_mono (a b : Z) : a <= b -> fexp prec emax a <= fexp prec emax b.
Proof. unfold fexp, SpecFloat.emin, prec, emax. lia. Qed.

Lemma fexp_ge_emin (a : Z) : -1074 <= fexp prec emax a.
Proof. unfold fexp, SpecFloat.emin, prec, emax. lia. Qed.

Lemma fexp_eq (a : Z) : fexp prec emax a = Z.max (a - 53) (-1074).
Proof. reflexivity. Qed.


Lemma inject_Z_succ (m : Z) : (inject_Z (m + 1) == inject_Z m + 1)%Q.
Proof. rewrite inject_Z_plus. reflexivity. Qed.

(** A bracket of [v] by two consecutive mantissas survives a right shift. *)
Lemma bracket_shift (m n e : Z) (v : Q) :
  0 <= m -> 0 <= n ->
  (inject_Z m * 2 ^ e <= v <= inject_Z (m + 1) * 2 ^ e)%Q ->
  (inject_Z (m / 2 ^ n) * 2 ^ (e + n) <= v
   <= inject_Z (m / 2 ^ n + 1) * 2 ^ (e + n))%Q.
Proof.
  intros Hm Hn [Hlo Hhi].
  pose proof (pow2_pos n Hn) as HT.
  pose proof (Z.mul_div_le m (2 ^ n) HT) as H1.
  pose proof (Z.mul_succ_div_gt m (2 ^ n) HT) as H2.
  assert (H2' : m + 1 <= 2 ^ n * (m / 2 ^ n + 1)) by lia.
  rewrite Zle_Qle, inject_Z_mult in H1.
  rewrite Zle_Qle, inject_Z_mult in H2'.
  rewrite Qpow2_add, (Qpow2_Z n Hn).
  pose proof (Qpow2_pos e) as He.
  set (P := (2 ^ e)%Q) in *. set (T := inject_Z (2 ^ n)) in *.
  set (a := inject_Z m) in *. set (a1 := inject_Z (m + 1)) in *.
  set (b := inject_Z (m / 2 ^ n)) in *. set (b1 := inject_Z (m / 2 ^ n + 1)) in *.
  split.
  - apply Qle_trans with (a * P)%Q; [ | exact Hlo].
    setoid_replace (b * (P * T))%Q with ((T * b) * P)%Q by ring.
    apply Qmult_le_compat_r; [exact H1 | lra].
  - apply Qle_trans with (a1 * P)%Q; [exact Hhi | ].
    setoid_replace (b1 * (P * T))%Q with ((T * b1) * P)%Q by ring.
    apply Qmult_le_compat_r; [exact H2' | lra].
Qed.

Lemma round_nearest_even_cases m l :
  round_nearest_even m l = m \/ round_nearest_even m l = m + 1.
Proof.
  destruct l as [ | [ | | ] ]; cbn [round_nearest_even]; auto.
  destruct (Z.even m); auto.
Qed.

Lemma Zdigits2_lower (m : Z) : 0 < m -> 2 ^ (Zdigits2 m - 1) <= m.
Proof.
  intros Hm. destruct m as [ | p | p ]; cbn [Zdigits2]; try lia.
  apply digits2_pos_bounds.
Qed.

(** The second shift of [binary_round_aux], after rounding, loses nothing. *)
Lemma snd_shift_exact (m' m1 e' : Z) :
  0 <= m' -> -1074 <= e' ->
  fexp prec emax (Zdigits2 m' + e') <= e' ->
  m1 = m' \/ m1 = m' + 1 ->
  (inject_Z (shr_m (fst (shr_fexp prec emax m1 e' loc_Exact)))
   * 2 ^ snd (shr_fexp prec emax m1 e' loc_Exact)
   == inject_Z m1 * 2 ^ e')%Q.
Proof.
  intros Hm' He' Hfit Hm1.
  assert (H1 : 0 <= m1) by lia.
  destruct (shr_fexp_spec m1 e' loc_Exact H1) as [-> ->].
  destruct (Z_le_gt_dec (fexp prec emax (Zdigits2 m1 + e')) e') as [Hle | Hgt].
  - rewrite Z.max_l by lia. rewrite Z.pow_0_r, Z.div_1_r, Z.add_0_r. reflexivity.
  - (* the rounding has carried into a new digit *)
    set (d := Zdigits2 m') in *.
    pose proof (Zdigits2_nonneg m') as Hd0. fold d in Hd0.
    assert (Hdig : d < Zdigits2 m1).
    { destruct (Z_lt_le_dec d (Zdigits2 m1)) as [H | H]; [exact H | ].
      pose proof (fexp_mono (Zdigits2 m1 + e') (d + e') ltac:(lia)). lia. }
    assert (Em1 : m1 = m' + 1).
    { destruct Hm1 as [E | E]; [ | exact E]. subst m1. unfold d in Hdig. lia. }
    pose proof (Zdigits2_upper m' Hm') as Hup. fold d in Hup.
    pose proof (Zdigits2_lower m1 ltac:(lia)) as Hlow.
    assert (Hpow : 2 ^ d <= 2 ^ (Zdigits2 m1 - 1)) by (apply Z.pow_le_mono_r; lia).
    assert (E2 : m1 = 2 ^ d) by lia.
    assert (Hd1 : Zdigits2 m1 = d + 1).
    { assert (Zdigits2 m1 <= d + 1).
      { apply Zdigits2_le; [lia | lia | ].
        rewrite E2. apply Z.pow_lt_mono_r; lia. }
      lia. }
    rewrite Hd1 in *.
    rewrite !fexp_eq in *.
    assert (Hn : Z.max (d + 1 + e' - 53) (-1074) - e' = 1) by lia.
    rewrite Hn. change (Z.max 0 1) with 1. change (2 ^ 1) with 2.
    assert (Hdpos : 1 <= d) by lia.
    assert (E3 : m1 = 2 * 2 ^ (d - 1)).
    { rewrite E2. replace d with (1 + (d - 1)) at 1 by lia.
      rewrite pow2_split by lia. reflexivity. }
    rewrite E3 at 1. rewrite (Z.mul_comm 2), Z.div_mul by lia.
    rewrite Qpow2_succ. rewrite E3, inject_Z_mult. ring.
Qed.

(** The error of one rounding: a value bracketed by [m] and [m + 1] at
    exponent [e] is returned within one unit of the exponent it is rounded
    at. *)
Lemma binary_round_aux_error (m e : Z) (l : location) (v : Q) :
  0 <= m ->
  (inject_Z m * 2 ^ e <= v <= inject_Z (m + 1) * 2 ^ e)%Q ->
  binary_round_aux prec emax false m e l = S754_infinity false
  \/ (sf_finite_nonneg (binary_round_aux prec emax false m e l)
      /\ (Qabs (SF2Q (binary_round_aux prec emax false m e l) - v)
          <= 2 ^ (e + Z.max 0 (fexp prec emax (Zdigits2 m + e) - e)))%Q).
Proof.
  intros Hm Hv.
  set (n := Z.max 0 (fexp prec emax (Zdigits2 m + e) - e)).
  assert (Hn : 0 <= n) by (unfold n; lia).
  pose proof (bracket_shift m n e v Hm Hn Hv) as Hb.
  unfold binary_round_aux.
  destruct (shr_fexp_spec m e l Hm) as [Hm' He']. fold n in Hm', He'.
  destruct (shr_fexp prec emax m e l) as [mrs' e']. cbn [fst snd] in Hm', He'.
  set (m1 := round_nearest_even (shr_m mrs') (loc_of_shr_record mrs')).
  assert (Hm'0 : 0 <= shr_m mrs').
  { rewrite Hm'. apply Z.div_pos; [exact Hm | now apply pow2_pos]. }
  assert (Hc : m1 = shr_m mrs' \/ m1 = shr_m mrs' + 1) by apply round_nearest_even_cases.
  assert (Hemin : -1074 <= e').
  { subst e'. unfold n. pose proof (fexp_ge_emin (Zdigits2 m + e)). lia. }
  assert (Hfit : fexp prec emax (Zdigits2 (shr_m mrs') + e') <= e').
  { rewrite fexp_eq. apply Z.max_lub; [ | exact Hemin].
    assert (Hdd : Zdigits2 (shr_m mrs') <= Z.max 0 (Zdigits2 m - n)).
    { pose proof (Zdigits2_upper m Hm) as Hup.
      pose proof (Zdigits2_nonneg m) as Hd0.
      apply Zdigits2_le; [exact Hm'0 | lia | ].
      rewrite Hm'. pose proof (pow2_pos n Hn).
      apply Z.div_lt_upper_bound; [lia | ].
      rewrite <- pow2_split by lia.
      apply Z.lt_le_trans with (1 := Hup). apply Z.pow_le_mono_r; lia. }
    subst e'. unfold n in *. rewrite fexp_eq in *. lia. }
  pose proof (snd_shift_exact (shr_m mrs') m1 e' Hm'0 Hemin Hfit Hc) as Hex.
  assert (Hval : (Qabs (inject_Z m1 * 2 ^ e' - v) <= 2 ^ e')%Q).
  { rewrite <- Hm', <- He' in Hb.
    rewrite inject_Z_succ in Hb.
    apply Qabs_Qle_condition.
    pose proof (Qpow2_pos e').
    destruct Hc as [-> | ->]; [ | rewrite inject_Z_succ]; lra. }
  assert (Hm10 : 0 <= m1) by lia.
  pose proof (shr_fexp_nonneg m1 e' loc_Exact Hm10) as Hnn.
  destruct (shr_fexp prec emax m1 e' loc_Exact) as [mrs'' e'']. cbn [fst snd] in Hex, Hnn.
  rewrite <- He'.
  destruct (shr_m mrs'') as [ | q | q ]; try lia.
  - right. split; [exact I | ]. cbn [SF2Q].
    setoid_replace (0 - v)%Q with (inject_Z m1 * 2 ^ e' - v)%Q; [exact Hval | ].
    rewrite <- Hex. change (inject_Z 0) with 0%Q. ring.
  - destruct (e'' <=? emax - prec).
    + right. split; [exact I | ]. cbn [SF2Q cond_Zopp].
      rewrite Hex. exact Hval.
    + left. reflexivity.
Qed.


Lemma pow_bound (k : Z) (v : Q) :
  (0 <= v)%Q ->
  k <= -1074 \/ (2 ^ (k + 52) <= v)%Q ->
  (2 ^ k <= v * 2 ^ (-52) + 2 ^ (-1074))%Q.
Proof.
  intros Hv [Hk | Hk].
  - pose proof (Qpow2_le k (-1074) Hk). pose proof (Qpow2_pos (-52)).
    assert (0 <= v * 2 ^ (-52))%Q by (apply Qmult_le_0_compat; lra). lra.
  - replace k with (k + 52 + -52) at 1 by lia. rewrite Qpow2_add.
    pose proof (Qpow2_pos (-52)). pose proof (Qpow2_pos (-1074)).
    assert (2 ^ (k + 52) * 2 ^ (-52) <= v * 2 ^ (-52))%Q
      by (apply Qmult_le_compat_r; lra).
    lra.
Qed.

(** A mantissa bounds the power of two of its number of digits. *)
Lemma pow_digits_le (m e : Z) :
  0 < m -> (2 ^ (Zdigits2 m - 1 + e) <= inject_Z m * 2 ^ e)%Q.
Proof.
  intros Hm. pose proof (Zdigits2_lower m Hm) as Hlo.
  assert (Hd : 0 <= Zdigits2 m - 1).
  { destruct m as [ | p | p ]; cbn [Zdigits2]; lia. }
  rewrite Qpow2_add, (Qpow2_Z _ Hd).
  apply Qmult_le_compat_r; [now rewrite <- Zle_Qle | ].
  pose proof (Qpow2_pos e). lra.
Qed.

Lemma lt_pow_digits (m e : Z) :
  0 <= m -> (inject_Z m * 2 ^ e <= 2 ^ (Zdigits2 m + e))%Q.
Proof.
  intros Hm. pose proof (Zdigits2_upper m Hm) as Hup.
  pose proof (Zdigits2_nonneg m) as Hd.
  rewrite Qpow2_add, (Qpow2_Z _ Hd).
  apply Qmult_le_compat_r; [rewrite <- Zle_Qle; lia | ].
  pose proof (Qpow2_pos e). lra.
Qed.

(** The product of two positive numbers, rounded. *)
Lemma SFmul_error (mx my : positive) (ex ey : Z) (v : Q) :
  2 ^ 52 <= Zpos my ->
  (v == inject_Z (Zpos mx) * 2 ^ ex * (inject_Z (Zpos my) * 2 ^ ey))%Q ->
  SFmul prec emax (S754_finite false mx ex) (S754_finite false my ey)
  = S754_infinity false
  \/ (sf_finite_nonneg
        (SFmul prec emax (S754_finite false mx ex) (S754_finite false my ey))
      /\ (Qabs (SF2Q (SFmul prec emax (S754_finite false mx ex)
                        (S754_finite false my ey)) - v)
          <= v * 2 ^ (-52) + 2 ^ (-1074))%Q).
Proof.
  intros Hmy Hv. cbn [SFmul xorb].
  set (m := Zpos (mx * my)). set (e := ex + ey).
  assert (Em : (inject_Z m * 2 ^ e == v)%Q).
  { unfold m, e. rewrite Pos2Z.inj_mul, inject_Z_mult, Qpow2_add, Hv. ring. }
  assert (Hm : 0 < m) by (unfold m; lia).
  assert (Hbr : (inject_Z m * 2 ^ e <= v <= inject_Z (m + 1) * 2 ^ e)%Q).
  { rewrite inject_Z_succ. pose proof (Qpow2_pos e). rewrite <- Em. split; lra. }
  destruct (binary_round_aux_error m e loc_Exact v ltac:(lia) Hbr) as [H | [H1 H2]];
    [left; exact H | right; split; [exact H1 | ] ].
  eapply Qle_trans; [exact H2 | ].
  assert (Hv0 : (0 <= v)%Q).
  { rewrite <- Em. apply Qmult_le_0_compat.
    - change 0%Q with (inject_Z 0). rewrite <- Zle_Qle. lia.
    - pose proof (Qpow2_pos e). lra. }
  apply pow_bound; [exact Hv0 | ].
  assert (Hd : 53 <= Zdigits2 m).
  { unfold m. cbn [Zdigits2]. apply digits_ge_53.
    rewrite Pos2Z.inj_mul. pose proof pow52_pos. nia. }
  rewrite fexp_eq.
  destruct (Z_le_gt_dec (Zdigits2 m + e - 53) (-1074)) as [Hs | Hs].
  - left. lia.
  - right. rewrite (Z.max_l (Zdigits2 m + e - 53) (-1074)) by lia.
    rewrite Z.max_r by lia.
    replace (e + (Zdigits2 m + e - 53 - e) + 52) with (Zdigits2 m - 1 + e) by lia.
    rewrite <- Em. apply pow_digits_le. exact Hm.
Qed.

(** The quotient of two positive numbers, rounded. *)
Lemma SFdiv_error (my mc : positive) (ey ec : Z) (v : Q) :
  (v * (inject_Z (Zpos mc) * 2 ^ ec) == inject_Z (Zpos my) * 2 ^ ey)%Q ->
  SFdiv prec emax (S754_finite false my ey) (S754_finite false mc ec)
  = S754_infinity false
  \/ (sf_finite_nonneg
        (SFdiv prec emax (S754_finite false my ey) (S754_finite false mc ec))
      /\ (Qabs (SF2Q (SFdiv prec emax (S754_finite false my ey)
                        (S754_finite false mc ec)) - v)
          <= v * 2 ^ (-52) + 2 ^ (-1074))%Q).
Proof.
  intros Hv.
  set (dy := Zpos (digits2_pos my)). set (dc := Zpos (digits2_pos mc)).
  pose proof (Qpow2_pos ec) as Hpec. pose proof (Qpow2_pos ey) as Hpey.
  assert (Hc0 : (0 < inject_Z (Zpos mc) * 2 ^ ec)%Q).
  { apply Qmult_lt_0_compat; [ | exact Hpec].
    change 0%Q with (inject_Z 0). now rewrite <- Zlt_Qlt. }
  assert (Hv0 : (0 <= v)%Q).
  { assert (H0 : (0 <= inject_Z (Zpos my) * 2 ^ ey)%Q).
    { apply Qmult_le_0_compat; [ | lra].
      change 0%Q with (inject_Z 0). now rewrite <- Zle_Qle. }
    rewrite <- Hv in H0.
    destruct (Qlt_le_dec v 0) as [Hneg | Hpos]; [ | exact Hpos].
    exfalso.
    assert (v * (inject_Z (Zpos mc) * 2 ^ ec) < 0 * (inject_Z (Zpos mc) * 2 ^ ec))%Q
      by (apply Qmult_lt_compat_r; assumption).
    lra. }
  (* the magnitude of the quotient *)
  assert (Hmag : (2 ^ (dy + ey - (dc + ec) - 1) <= v)%Q).
  { apply (Qmult_le_r _ _ _ Hc0). rewrite Hv.
    apply Qle_trans with (2 ^ (dy + ey - (dc + ec) - 1) * 2 ^ (dc + ec))%Q.
    - apply Qmult_le_l; [apply Qpow2_pos | ].
      apply (lt_pow_digits (Zpos mc) ec). lia.
    - rewrite <- Qpow2_add.
      replace (dy + ey - (dc + ec) - 1 + (dc + ec)) with (Zdigits2 (Zpos my) - 1 + ey)
        by (cbn [Zdigits2]; fold dy; lia).
      apply pow_digits_le. lia. }
  unfold SFdiv, SFdiv_core_binary. cbn [xorb Zdigits2]. fold dy dc.
  set (e' := Z.min (fexp prec emax (dy + ey - (dc + ec))) (ey - ec)).
  set (s := ey - ec - e').
  assert (Hs : 0 <= s) by (unfold s, e'; lia).
  set (m' := match s with Z0 => Zpos my | Zpos _ => Z.shiftl (Zpos my) s | Zneg _ => 0 end).
  assert (Hm' : m' = Zpos my * 2 ^ s).
  { unfold m'. destruct s as [ | p | p ] eqn:Es.
    - rewrite Z.pow_0_r. lia.
    - apply Z.shiftl_mul_pow2. lia.
    - lia. }
  clearbody m'.
  assert (Hq : fst (Z.div_eucl m' (Zpos mc)) = m' / Zpos mc) by reflexivity.
  assert (Hr : snd (Z.div_eucl m' (Zpos mc)) = m' mod Zpos mc) by reflexivity.
  destruct (Z.div_eucl m' (Zpos mc)) as [q r]. cbn [fst snd] in Hq, Hr.
  pose proof (pow2_pos s Hs) as Hps.
  assert (Hm'0 : 0 <= m') by (rewrite Hm'; nia).
  assert (Hq0 : 0 <= q) by (rewrite Hq; apply Z.div_pos; lia).
  pose proof (Z.mul_div_le m' (Zpos mc) ltac:(lia)) as Hlo. rewrite <- Hq in Hlo.
  pose proof (Z.mul_succ_div_gt m' (Zpos mc) ltac:(lia)) as Hhi. rewrite <- Hq in Hhi.
  assert (Hhi' : m' <= Zpos mc * (q + 1)) by lia.
  (* the value is the exact quotient at exponent [e'] *)
  assert (Ev : (v * inject_Z (Zpos mc) == inject_Z m' * 2 ^ e')%Q).
  { apply (Qmult_inj_r _ _ (2 ^ ec)%Q); [lra | ].
    rewrite <- Qmult_assoc, Hv, Hm', inject_Z_mult, <- (Qpow2_Z s Hs).
    replace ey with (s + e' + ec) at 1 by (unfold s; lia).
    rewrite !Qpow2_add. ring. }
  assert (Hmc0 : (0 < inject_Z (Zpos mc))%Q).
  { change 0%Q with (inject_Z 0). now rewrite <- Zlt_Qlt. }
  pose proof (Qpow2_pos e') as Hpe'.
  assert (Hbr : (inject_Z q * 2 ^ e' <= v <= inject_Z (q + 1) * 2 ^ e')%Q).
  { rewrite Zle_Qle, inject_Z_mult in Hlo.
    rewrite Zle_Qle, inject_Z_mult in Hhi'.
    split; apply (Qmult_le_r _ _ _ Hmc0); rewrite Ev.
    - setoid_replace (inject_Z q * 2 ^ e' * inject_Z (Zpos mc))%Q
        with ((inject_Z (Zpos mc) * inject_Z q) * 2 ^ e')%Q by ring.
      apply Qmult_le_compat_r; [exact Hlo | lra].
    - setoid_replace (inject_Z (q + 1) * 2 ^ e' * inject_Z (Zpos mc))%Q
        with ((inject_Z (Zpos mc) * inject_Z (q + 1)) * 2 ^ e')%Q by ring.
      apply Qmult_le_compat_r; [exact Hhi' | lra]. }
  destruct (binary_round_aux_error q e' (new_location (Zpos mc) r) v Hq0 Hbr)
    as [H | [H1 H2]]; [left; exact H | right; split; [exact H1 | ] ].
  eapply Qle_trans; [exact H2 | ].
  apply pow_bound; [exact Hv0 | ].
  assert (He' : e' <= fexp prec emax (dy + ey - (dc + ec))) by (unfold e'; lia).
  rewrite fexp_eq in *.
  destruct (Z_le_gt_dec (e' + Z.max 0 (Z.max (Zdigits2 q + e' - 53) (-1074) - e')) (-1074))
    as [Hk | Hk]; [left; exact Hk | right].
  destruct (Z_le_gt_dec (Z.max (Zdigits2 q + e' - 53) (-1074)) e') as [Hn | Hn].
  - (* no shift: the exponent is [e'] *)
    rewrite Z.max_l in * by lia. rewrite Z.add_0_r in *.
    apply Qle_trans with (2 := Hmag). apply Qpow2_le. lia.
  - rewrite Z.max_r in * by lia.
    assert (Hqpos : 0 < q).
    { destruct (Z.eq_dec q 0) as [E | E]; [ | lia].
      rewrite E in Hn, Hk. cbn [Zdigits2] in Hn, Hk. lia. }
    apply Qle_trans with (2 ^ (Zdigits2 q - 1 + e'))%Q.
    + apply Qpow2_le. lia.
    + apply Qle_trans with (inject_Z q * 2 ^ e')%Q; [ | apply Hbr].
      apply pow_digits_le. exact Hqpos.
Qed.

End Binary64.

(** ** From the specification to the primitive operations *)

Lemma Prim2SF_one : Prim2SF 1 = S754_finite false 4503599627370496 (-52).
Proof. reflexivity. Qed.

Lemma Prim2SF_zero : Prim2SF 0 = S754_zero false.
Proof. reflexivity. Qed.

Lemma float_of_Z_2080 : float_of_Z 2080 = 2080%float.
Proof. reflexivity. Qed.

Lemma sf_nonneg_leb x : sf_nonneg x -> SFleb (S754_zero false) x = true.
Proof.
  destruct x as [ [ | ] | [ | ] | | [ | ] m e ]; cbn [sf_nonneg];
    intros H; try contradiction; reflexivity.
Qed.

(** [0 <= l] for a float that is not the negative zero. *)
Lemma nonneg_float (l : float) :
  (0 <=? l)%float = true -> l <> neg_zero -> sf_nonneg (Prim2SF l).
Proof.
  intros Hle Hnz. rewrite FloatAxioms.leb_spec, Prim2SF_zero in Hle.
  destruct (Prim2SF l) as [ [ | ] | [ | ] | | [ | ] m e ] eqn:El;
    try discriminate Hle; try exact I.
  exfalso. apply Hnz. rewrite <- (SF2Prim_Prim2SF l), El. reflexivity.
Qed.

Lemma pos_float (x : float) : (0 <? x)%float = true -> sf_nonneg (Prim2SF x).
Proof.
  intros Hlt. rewrite FloatAxioms.ltb_spec, Prim2SF_zero in Hlt.
  destruct (Prim2SF x) as [ [ | ] | [ | ] | | [ | ] m e ];
    try discriminate Hlt; exact I.
Qed.

Lemma toAnnual_sign (salary : float) (mode : jsval) :
  (0 <? salary)%float = true ->
  Prim2SF (toAnnual salary mode) = S754_nan \/ sf_nonneg (Prim2SF (toAnnual salary mode)).
Proof.
  intros Hpos. apply pos_float in Hpos. unfold toAnnual.
  destruct (strict_eq_string mode "annual").
  - now right.
  - cbn [nmul nlit float_Arith]. rewrite float_of_Z_2080, FloatAxioms.mul_spec.
    apply SFmul_nonneg; [exact Hpos | exact I].
Qed.

(** When a row is classified [below], its gap is not negative. *)
Lemma gap_nonneg (u l : float) :
  Prim2SF u = S754_nan \/ sf_nonneg (Prim2SF u) ->
  sf_nonneg (Prim2SF l) ->
  (u / l <? 1)%float = true ->
  (0 <=? l - u)%float = true.
Proof.
  intros Hu Hl Hlt.
  rewrite FloatAxioms.ltb_spec, FloatAxioms.div_spec, Prim2SF_one in Hlt.
  rewrite FloatAxioms.leb_spec, FloatAxioms.sub_spec, Prim2SF_zero.
  apply sf_nonneg_leb. now apply below_gap_nonneg.
Qed.

Lemma pos_float_cases (x : float) :
  (0 <? x)%float = true ->
  Prim2SF x = S754_infinity false \/ exists m e, Prim2SF x = S754_finite false m e.
Proof.
  intros Hlt. rewrite FloatAxioms.ltb_spec, Prim2SF_zero in Hlt.
  destruct (Prim2SF x) as [ [ | ] | [ | ] | | [ | ] m e ];
    try discriminate Hlt; eauto.
Qed.


(** ** Order of binary64 values *)

Lemma SFcompare_antisym (x y : spec_float) :
  SFcompare y x = option_map CompOpp (SFcompare x y).
Proof.
  destruct x as [ [ | ] | [ | ] | | [ | ] mx ex ];
    destruct y as [ [ | ] | [ | ] | | [ | ] my ey ]; try reflexivity;
    cbn [SFcompare option_map]; f_equal;
    rewrite !compare_cont_Z, (Z.compare_antisym ex ey),
      (Z.compare_antisym (Zpos mx) (Zpos my));
    destruct (ex ?= ey)%Z; cbn [CompOpp]; try reflexivity;
    destruct (Zpos mx ?= Zpos my)%Z; reflexivity.
Qed.

Lemma leb_not_ltb (a b : float) :
  (a <=? b)%float = true -> (b <? a)%float = false.
Proof.
  rewrite FloatAxioms.leb_spec, FloatAxioms.ltb_spec. unfold SFleb, SFltb.
  rewrite (SFcompare_antisym (Prim2SF a) (Prim2SF b)).
  now destruct (SFcompare (Prim2SF a) (Prim2SF b)) as [ [ | | ] | ].
Qed.

Lemma Prim2SF_1_1 : Prim2SF 1.1 = S754_finite false 4953959590107546 (-52).
Proof. reflexivity. Qed.

(** [1.1 <= r] excludes [r < 1]. *)
Lemma ge_1_1_not_lt_1 (r : float) :
  (1.1 <=? r)%float = true -> (r <? 1)%float = false.
Proof.
  rewrite FloatAxioms.leb_spec, FloatAxioms.ltb_spec, Prim2SF_1_1, Prim2SF_one.
  destruct (Prim2SF r) as [ [ | ] | [ | ] | | [ | ] m e ]; try reflexivity;
    try discriminate.
  unfold SFleb, SFltb, SFcompare.
  rewrite !compare_cont_Z, (Z.compare_antisym e (-52)).
  destruct (Z.compare_spec e (-52)); cbn [CompOpp]; try reflexivity; try discriminate.
  destruct (Z.compare_spec (Zpos 4953959590107546) (Zpos m)); try discriminate; intros _;
    (destruct (Z.compare_spec (Zpos m) (Zpos 4503599627370496));
     try reflexivity; exfalso; lia).
Qed.

(** Equality test against a finite non-zero constant is identity. *)
Lemma eqb_finite (r c : float) (s : bool) (m : positive) (e : Z) :
  Prim2SF c = S754_finite s m e -> (r =? c)%float = true -> r = c.
Proof.
  intros Ec Heq. rewrite FloatAxioms.eqb_spec, Ec in Heq. apply Prim2SF_inj. rewrite Ec.
  unfold SFeqb, SFcompare in Heq.
  destruct (Prim2SF r) as [ [ | ] | [ | ] | | [ | ] m' e' ]; destruct s;
    try discriminate Heq;
    rewrite compare_cont_Z in Heq;
    (destruct (Z.compare_spec e' e); try discriminate Heq);
    (destruct (Z.compare_spec (Zpos m') (Zpos m)) as [Hm | Hm | Hm];
     try discriminate Heq);
    inversion Hm; subst; reflexivity.
Qed.

(** ** NaN and the totality of the order *)

Lemma SFcompare_refl (x : spec_float) :
  x <> S754_nan -> SFcompare x x = Some Eq.
Proof.
  destruct x as [ [ | ] | [ | ] | | [ | ] m e ]; intros Hx; try reflexivity;
    try (now elim Hx);
    cbn [SFcompare]; rewrite compare_cont_Z, !Z.compare_refl; reflexivity.
Qed.

Lemma SFcompare_None (x y : spec_float) :
  SFcompare x y = None -> x = S754_nan \/ y = S754_nan.
Proof.
  destruct x as [ [ | ] | [ | ] | | [ | ] mx ex ];
    destruct y as [ [ | ] | [ | ] | | [ | ] my ey ];
    cbn [SFcompare]; intros H; try discriminate H; auto.
Qed.

(** [isNaN] is the NaN of the specification. *)
Lemma isNaN_spec (x : float) : isNaN x = true <-> Prim2SF x = S754_nan.
Proof.
  unfold isNaN, is_nan. rewrite FloatAxioms.eqb_spec. unfold SFeqb. split.
  - intros H. destruct (Prim2SF x) eqn:E; try reflexivity;
      rewrite SFcompare_refl in H by discriminate; discriminate H.
  - intros ->. reflexivity.
Qed.

(** Two numbers are comparable unless one of them is NaN. *)
Lemma not_ltb_leb (a b : float) :
  isNaN a = false -> isNaN b = false ->
  (a <? b)%float = false -> (b <=? a)%float = true.
Proof.
  intros Ha Hb. rewrite FloatAxioms.ltb_spec, FloatAxioms.leb_spec.
  unfold SFltb, SFleb. rewrite (SFcompare_antisym (Prim2SF a) (Prim2SF b)).
  destruct (SFcompare (Prim2SF a) (Prim2SF b)) as [ [ | | ] | ] eqn:E;
    cbn [option_map CompOpp]; try reflexivity; try discriminate.
  intros _. apply SFcompare_None in E. destruct E as [E | E];
    apply isNaN_spec in E; congruence.
Qed.

Lemma nan_not_ltb (a b : float) :
  isNaN a = true -> (a <? b)%float = false /\ (b <=? a)%float = false.
Proof.
  intros Ha. apply isNaN_spec in Ha.
  rewrite FloatAxioms.ltb_spec, FloatAxioms.leb_spec, Ha. unfold SFltb, SFleb.
  split; [reflexivity | ]. now destruct (Prim2SF b).
Qed.

(** A quotient by NaN is NaN. *)
Lemma div_nan (u l : float) : isNaN l = true -> isNaN (u / l) = true.
Proof.
  intros Hl. apply isNaN_spec in Hl. apply isNaN_spec.
  rewrite FloatAxioms.div_spec, Hl. now destruct (Prim2SF u).
Qed.

(** ** The two conversions in a row

    The product by 2080 followed by the quotient by 2080, and the other way
    round, on the specification of binary64: each operation is rounded
    once, with a relative error of at most [2 ^ -52] or, below the normal
    range, an absolute error of at most [2 ^ -1074]. *)

Section RoundTrip.

Local Abbreviation hours := (S754_finite false 4573968371548160 (-41)).

Lemma hours_value : (inject_Z 4573968371548160 * 2 ^ (-41) == 2080)%Q.
Proof. reflexivity. Qed.

Lemma hours_digits : (2 ^ 52 <= 4573968371548160)%Z.
Proof. intro H. discriminate H. Qed.

Lemma eps_le : (2 ^ (-52) <= 1 # 4160)%Q.
Proof.
  apply Qle_trans with (2 ^ (-13))%Q; [apply Qpow2_le; lia | ].
  intro H. discriminate H.
Qed.

Lemma pow_m50 : (2 ^ (-50) == 4 * 2 ^ (-52))%Q.
Proof. change (-50)%Z with (2 + -52)%Z. rewrite Qpow2_add. reflexivity. Qed.

Lemma pow_m1073 : (2 ^ (-1073) == 2 * 2 ^ (-1074))%Q.
Proof. change (-1073)%Z with (1 + -1074)%Z. rewrite Qpow2_add. reflexivity. Qed.

Lemma pow_m1061 : (2 ^ (-1061) == 8192 * 2 ^ (-1074))%Q.
Proof. change (-1061)%Z with (13 + -1074)%Z. rewrite Qpow2_add. reflexivity. Qed.

Lemma mul_le_self (a t : Q) : (0 <= a -> 0 <= t <= 1 -> a * t <= a)%Q.
Proof. intros Ha Ht. nra. Qed.

Lemma mul_nonneg (a t : Q) : (0 <= a -> 0 <= t -> 0 <= a * t)%Q.
Proof. intros. apply Qmult_le_0_compat; assumption. Qed.

Lemma SF2Q_nonneg (m : positive) (e : Z) : (0 < inject_Z (Zpos m) * 2 ^ e)%Q.
Proof.
  apply Qmult_lt_0_compat; [ | apply Qpow2_pos].
  change 0%Q with (inject_Z 0). now rewrite <- Zlt_Qlt.
Qed.

(** Hourly to annual and back. *)
Lemma mul_div_2080 (mx : positive) (ex : Z) :
  SFdiv prec emax (SFmul prec emax (S754_finite false mx ex) hours) hours
  = S754_infinity false
  \/ (sf_finite_nonneg
        (SFdiv prec emax (SFmul prec emax (S754_finite false mx ex) hours) hours)
      /\ (Qabs (SF2Q (SFdiv prec emax
                        (SFmul prec emax (S754_finite false mx ex) hours) hours)
                - SF2Q (S754_finite false mx ex))
          <= SF2Q (S754_finite false mx ex) * 2 ^ (-50) + 2 ^ (-1073))%Q).
Proof.
  set (X := (inject_Z (Zpos mx) * 2 ^ ex)%Q).
  assert (HX : (0 < X)%Q) by apply SF2Q_nonneg.
  pose proof (Qpow2_pos (-52)) as He. pose proof eps_le as He1.
  pose proof (Qpow2_pos (-1074)) as Hu.
  rewrite pow_m50, pow_m1073.
  change (SF2Q (S754_finite false mx ex)) with X.
  destruct (SFmul_error mx 4573968371548160 ex (-41) (X * 2080)%Q hours_digits) as [Hy | [Hy1 Hy2] ].
  { unfold X. rewrite hours_value. reflexivity. }
  { left. rewrite Hy. reflexivity. }
  apply Qabs_Qle_condition in Hy2.
  set (a := (X * 2 ^ (-52))%Q) in *.
  assert (Ha : (0 <= a)%Q) by (apply mul_nonneg; lra).
  setoid_replace (X * 2080 * 2 ^ (-52))%Q with (2080 * a)%Q in Hy2 by (unfold a; ring).
  assert (Ea : (X * (4 * 2 ^ (-52)) == 4 * a)%Q) by (unfold a; ring).
  destruct (SFmul prec emax (S754_finite false mx ex) hours) as [ [ | ] | | | [ | ] my ey ];
    cbn [sf_finite_nonneg] in Hy1; try contradiction.
  - (* the product is zero *)
    right. cbn [SFdiv xorb]. split; [exact I | ].
    cbn [SF2Q] in *. rewrite Ea. apply Qabs_Qle_condition. lra.
  - set (Y := (inject_Z (Zpos my) * 2 ^ ey)%Q).
    change (SF2Q (S754_finite false my ey)) with Y in Hy2.
    destruct (SFdiv_error my 4573968371548160 ey (-41) (Y / 2080)%Q) as [Hz | [Hz1 Hz2] ].
    { rewrite hours_value. fold Y. field. }
    { left. exact Hz. }
    right. split; [exact Hz1 | ].
    apply Qabs_Qle_condition in Hz2. rewrite Ea. apply Qabs_Qle_condition.
    set (z := SF2Q (SFdiv prec emax (S754_finite false my ey) hours)) in *.
    set (v := (Y / 2080)%Q) in *.
    assert (Ev : (2080 * v == Y)%Q) by (unfold v; field).
    set (b := (v * 2 ^ (-52))%Q) in *.
    assert (Hv : (0 <= v)%Q).
    { assert (0 < Y)%Q by apply SF2Q_nonneg. lra. }
    assert (Hb : (b <= 2 * a + (1 # 2080) * 2 ^ (-1074))%Q).
    { assert (H1 : (v <= X + a + (1 # 2080) * 2 ^ (-1074))%Q) by lra.
      assert (H2 : (b <= (X + a + (1 # 2080) * 2 ^ (-1074)) * 2 ^ (-52))%Q).
      { unfold b. apply Qmult_le_compat_r; lra. }
      pose proof (mul_le_self a (2 ^ (-52)) Ha ltac:(lra)).
      pose proof (mul_le_self ((1 # 2080) * 2 ^ (-1074)) (2 ^ (-52)) ltac:(lra) ltac:(lra)).
      fold a in H2. lra. }
    assert (Hb0 : (0 <= b)%Q) by (apply mul_nonneg; lra).
    lra.
Qed.


(** Annual to hourly and back. *)
Lemma div_mul_2080 (mx : positive) (ex : Z) :
  SFmul prec emax (SFdiv prec emax (S754_finite false mx ex) hours) hours
  = S754_infinity false
  \/ (sf_finite_nonneg
        (SFmul prec emax (SFdiv prec emax (S754_finite false mx ex) hours) hours)
      /\ (Qabs (SF2Q (SFmul prec emax
                        (SFdiv prec emax (S754_finite false mx ex) hours) hours)
                - SF2Q (S754_finite false mx ex))
          <= SF2Q (S754_finite false mx ex) * 2 ^ (-50) + 2 ^ (-1061))%Q).
Proof.
  set (X := (inject_Z (Zpos mx) * 2 ^ ex)%Q).
  assert (HX : (0 < X)%Q) by apply SF2Q_nonneg.
  pose proof (Qpow2_pos (-52)) as He. pose proof eps_le as He1.
  pose proof (Qpow2_pos (-1074)) as Hu.
  rewrite pow_m50, pow_m1061.
  change (SF2Q (S754_finite false mx ex)) with X.
  set (a := (X * 2 ^ (-52))%Q) in *.
  assert (Ha : (0 <= a)%Q) by (apply mul_nonneg; lra).
  assert (Ea : (X * (4 * 2 ^ (-52)) == 4 * a)%Q) by (unfold a; ring).
  set (v := (X / 2080)%Q).
  assert (Ev : (2080 * v == X)%Q) by (unfold v; field).
  destruct (SFdiv_error mx 4573968371548160 ex (-41) v) as [Hq | [Hq1 Hq2] ].
  { rewrite hours_value. fold X. unfold v. field. }
  { left. rewrite Hq. reflexivity. }
  apply Qabs_Qle_condition in Hq2.
  setoid_replace (v * 2 ^ (-52))%Q with ((1 # 2080) * a)%Q in Hq2 by (unfold a, v; field).
  destruct (SFdiv prec emax (S754_finite false mx ex) hours) as [ [ | ] | | | [ | ] mq eq ];
    cbn [sf_finite_nonneg] in Hq1; try contradiction.
  - (* the quotient is zero *)
    right. cbn [SFmul xorb]. split; [exact I | ].
    cbn [SF2Q] in *. rewrite Ea. apply Qabs_Qle_condition. lra.
  - set (Y := (inject_Z (Zpos mq) * 2 ^ eq)%Q).
    change (SF2Q (S754_finite false mq eq)) with Y in Hq2.
    destruct (SFmul_error mq 4573968371548160 eq (-41) (Y * 2080)%Q hours_digits) as [Hz | [Hz1 Hz2] ].
    { rewrite hours_value. reflexivity. }
    { left. exact Hz. }
    right. split; [exact Hz1 | ].
    apply Qabs_Qle_condition in Hz2. rewrite Ea. apply Qabs_Qle_condition.
    set (z := SF2Q (SFmul prec emax (S754_finite false mq eq) hours)) in *.
    set (b := (Y * 2080 * 2 ^ (-52))%Q) in *.
    assert (HY : (0 < Y)%Q) by apply SF2Q_nonneg.
    assert (Hb : (b <= 2 * a + 2 ^ (-1074))%Q).
    { assert (H1 : (2080 * Y <= X + a + 2080 * 2 ^ (-1074))%Q) by lra.
      assert (H2 : (b <= (X + a + 2080 * 2 ^ (-1074)) * 2 ^ (-52))%Q).
      { unfold b. setoid_replace (Y * 2080)%Q with (2080 * Y)%Q by ring.
        apply Qmult_le_compat_r; lra. }
      pose proof (mul_le_self a (2 ^ (-52)) Ha ltac:(lra)).
      assert (H3 : (2 ^ (-1074) * (2080 * 2 ^ (-52)) <= 2 ^ (-1074))%Q)
        by (apply mul_le_self; lra).
      fold a in H2. lra. }
    assert (Hb0 : (0 <= b)%Q).
    { unfold b. apply mul_nonneg; lra. }
    lra.
Qed.

End RoundTrip.

(** *** On the primitive numbers *)

Lemma Prim2SF_2080 : Prim2SF 2080 = S754_finite false 4573968371548160 (-41).
Proof. reflexivity. Qed.

Lemma is_finite_cases (x : float) :
  is_finite x = true ->
  (exists s, Prim2SF x = S754_zero s) \/ (exists s m e, Prim2SF x = S754_finite s m e).
Proof.
  unfold is_finite, is_nan, is_infinity.
  rewrite !FloatAxioms.eqb_spec, abs_spec.
  destruct (Prim2SF x) as [ s | [ | ] | | s m e ]; eauto;
    intros H; vm_compute in H; discriminate H.
Qed.

(** The numbers that are at least 0: a zero of either sign, a positive
    finite number, or [+Infinity]. *)
Lemma nonneg_cases (x : float) :
  (0 <=? x)%float = true ->
  (exists s, Prim2SF x = S754_zero s)
  \/ (exists m e, Prim2SF x = S754_finite false m e)
  \/ x = infinity.
Proof.
  intros Hle. rewrite FloatAxioms.leb_spec, Prim2SF_zero in Hle.
  destruct (Prim2SF x) as [ s | [ | ] | | [ | ] m e ] eqn:E;
    try discriminate Hle; eauto.
  right. right. rewrite <- (SF2Prim_Prim2SF x), E. reflexivity.
Qed.

Lemma finite_not_infinity (x : float) :
  is_finite x = true -> Prim2SF x <> S754_infinity false.
Proof.
  intros Hf E. destruct (is_finite_cases x Hf) as [(s & E') | (s & m & e & E')];
    congruence.
Qed.

Lemma tolerance_nonneg (v : Q) (k : Z) : (0 <= v -> 0 <= v * 2 ^ (-50) + 2 ^ k)%Q.
Proof.
  intros Hv. pose proof (Qpow2_pos (-50)). pose proof (Qpow2_pos k).
  assert (0 <= v * 2 ^ (-50))%Q by (apply Qmult_le_0_compat; lra). lra.
Qed.

(** ** The handler *)

Section HandlerFacts.
Variable S : string -> float.

(** The path to the success response. *)
Lemma POST_found db req body data rest w :
  req_json req = inr body ->
  rejected (b_state body) (b_county body) (b_soc_code body)
    (ToNumber S (b_salary_value body)) = false ->
  db (b_state body) (b_county body) (b_soc_code body) = inr (data :: rest) ->
  POST S db req w =
  (inr (JsonOk (response_of S (b_state body) (b_county body) (b_soc_code body)
                  (ToNumber S (b_salary_value body))
                  (js_or (b_mode body) (JString "annual"))
                  (toAnnual (ToNumber S (b_salary_value body))
                     (js_or (b_mode body) (JString "annual")))
                  data)), w).
Proof.
  intros Hb Hrej Hdb. unfold POST, try_catch, bind, await.
  rewrite Hb. cbn [ret]. rewrite Hrej, Hdb. reflexivity.
Qed.

(** A success response can only come from that path. *)
Lemma POST_ok_inv db req w w' p :
  POST S db req w = (inr (JsonOk p), w') ->
  exists body data rest,
    req_json req = inr body
    /\ rejected (b_state body) (b_county body) (b_soc_code body)
         (ToNumber S (b_salary_value body)) = false
    /\ db (b_state body) (b_county body) (b_soc_code body) = inr (data :: rest)
    /\ p = response_of S (b_state body) (b_county body) (b_soc_code body)
             (ToNumber S (b_salary_value body))
             (js_or (b_mode body) (JString "annual"))
             (toAnnual (ToNumber S (b_salary_value body))
                (js_or (b_mode body) (JString "annual")))
             data
    /\ w' = w.
Proof.
  unfold POST, try_catch, bind, await.
  destruct (req_json req) as [err | body] eqn:Hb.
  - cbn. intros H. inversion H.
  - cbn [ret].
    destruct (rejected _ _ _ _) eqn:Hrej.
    + intros H. inversion H.
    + destruct (db _ _ _) as [err | [ | data rest]] eqn:Hdb.
      * cbn. intros H. inversion H.
      * cbn. intros H. inversion H.
      * cbn. intros H. inversion H. subst.
        exists body, data, rest. repeat split; assumption.
Qed.

(** The handler always answers: every thrown error is caught. *)
Lemma POST_answers db req w : exists r w', POST S db req w = (inr r, w').
Proof.
  unfold POST, try_catch, bind, await.
  destruct (req_json req) as [err | body]; cbn [ret throw].
  - do 2 eexists; reflexivity.
  - destruct (rejected _ _ _ _); [do 2 eexists; reflexivity | ].
    destruct (db _ _ _) as [err | [ | data rest]]; do 2 eexists; reflexivity.
Qed.

(** Every row of the table is the callback applied to its own level. *)
Lemma table_rows db req w w' p r :
  POST S db req w = (inr (JsonOk p), w') ->
  In r (table p) ->
  r = table_row S (salary_annual (input p))
        {| key := level r; wageAnnual := annual_wage r |}.
Proof.
  intros Hok Hin.
  destruct (POST_ok_inv _ _ _ _ _ Hok) as (body & data & rest & _ & _ & _ & -> & _).
  cbn in Hin |- *.
  destruct Hin as [<- | [<- | [<- | [<- | []]]]]; reflexivity.
Qed.

(** The three branches of the classification. *)
Lemma table_row_status u lvl :
  let r := table_row S u lvl in
  ((ratio r <? 1)%float = true -> status r = below)
  /\ ((1 <=? ratio r)%float = true -> (ratio r <? 1.1)%float = true -> status r = meets)
  /\ ((1.1 <=? ratio r)%float = true -> status r = exceeds).
Proof.
  cbn [table_row ratio status].
  set (q := (u / ToNumber S (wageAnnual lvl))%float).
  repeat split.
  - intros ->. reflexivity.
  - intros H1 H2. rewrite (leb_not_ltb _ _ H1), H1, H2. reflexivity.
  - intros H. rewrite (ge_1_1_not_lt_1 _ H), (leb_not_ltb _ _ H), andb_false_r.
    reflexivity.
Qed.

(** The gap is the difference for [below] and zero otherwise. *)
Lemma table_row_gap u lvl :
  let r := table_row S u lvl in
  (status r = below -> toReachAnnual r = (ToNumber S (wageAnnual lvl) - u)%float)
  /\ (status r <> below -> toReachAnnual r = 0%float).
Proof.
  cbn [table_row status toReachAnnual].
  destruct (u / ToNumber S (wageAnnual lvl) <? 1)%float;
    [ | destruct ((1 <=? _) && (_ <? 1.1))%float ];
    split; intros H; try reflexivity; try discriminate H; now elim H.
Qed.

(** The classification read backwards: the status of a row says where its
    ratio lies. *)
Lemma table_row_classified u lvl :
  let r := table_row S u lvl in
  (status r = below <-> (ratio r <? 1)%float = true)
  /\ (status r = meets <->
      (1 <=? ratio r)%float = true /\ (ratio r <? 1.1)%float = true)
  /\ (status r = exceeds <->
      (1.1 <=? ratio r)%float = true \/ isNaN (ratio r) = true).
Proof.
  destruct (table_row_status u lvl) as (Hb & Hm & He).
  cbn [table_row ratio status] in *.
  set (q := (u / ToNumber S (wageAnnual lvl))%float) in *.
  split; [ | split]; split.
  - destruct (q <? 1)%float; [reflexivity | ].
    destruct ((1 <=? q) && (q <? 1.1))%float; discriminate.
  - exact Hb.
  - destruct (q <? 1)%float; [discriminate | ].
    destruct (1 <=? q)%float; [ | discriminate].
    destruct (q <? 1.1)%float; [split; reflexivity | discriminate].
  - intros [H1 H2]. now apply Hm.
  - intros Hs. destruct (isNaN q) eqn:Hn; [now right | left].
    destruct (q <? 1)%float eqn:Hlt; [discriminate Hs | ].
    pose proof (not_ltb_leb q 1%float Hn eq_refl Hlt) as Hge. rewrite Hge in Hs.
    cbn [andb] in Hs.
    destruct (q <? 1.1)%float eqn:Hlt'; [discriminate Hs | ].
    exact (not_ltb_leb q 1.1%float Hn eq_refl Hlt').
  - intros [Hge | Hn]; [now apply He | ].
    destruct (nan_not_ltb q 1%float Hn) as [H1 H2]. rewrite H1, H2. reflexivity.
Qed.

Lemma table_row_below u lvl :
  status (table_row S u lvl) = below ->
  (u / ToNumber S (wageAnnual lvl) <? 1)%float = true.
Proof.
  cbn [table_row status].
  destruct (u / ToNumber S (wageAnnual lvl) <? 1)%float; [reflexivity | ].
  destruct ((1 <=? _) && (_ <? 1.1))%float; discriminate.
Qed.
End HandlerFacts.

(** * The claims *)

(** C1.  A successful comparison is the answer to a request that passes
    the guard and finds a document.  Its table then has one row for each of
    L1, L2, L3, L4, holding the wage of that level in the document; the
    ratio of a row is the annual salary (the request's salary through
    [toAnnual]) divided by that wage, and its status follows Policy A:
    [below] if ratio < 1, [meets] if 1 <= ratio < 1.1, [exceeds] if
    ratio >= 1.1, and in no other case (but for [exceeds], which is also
    the status of a ratio that is NaN).  A ratio equal to 1 gives [meets]
    and a ratio equal to 1.1 gives [exceeds]. *)
Theorem status_policy_A (S : string -> float) db req body data rest w :
  req_json req = inr body ->
  rejected (b_state body) (b_county body) (b_soc_code body)
    (ToNumber S (b_salary_value body)) = false ->
  db (b_state body) (b_county body) (b_soc_code body) = inr (data :: rest) ->
  exists p,
    POST S db req w = (inr (JsonOk p), w)
    /\ map level (table p) = ["L1"; "L2"; "L3"; "L4"]%string
    /\ map annual_wage (table p)
       = [l1_wage data; l2_wage data; l3_wage data; l4_wage data]
    /\ forall r, In r (table p) ->
         ratio r
         = (toAnnual (ToNumber S (b_salary_value body))
              (js_or (b_mode body) (JString "annual"))
            / ToNumber S (annual_wage r))%float
         /\ (status r = below <-> (ratio r <? 1)%float = true)
         /\ (status r = meets <->
             (1 <=? ratio r)%float = true /\ (ratio r <? 1.1)%float = true)
         /\ (status r = exceeds <->
             (1.1 <=? ratio r)%float = true \/ isNaN (ratio r) = true)
         /\ ((ratio r =? 1)%float = true -> status r = meets)
         /\ ((ratio r =? 1.1)%float = true -> status r = exceeds).
Proof.
  intros Hb Hrej Hdb.
  eexists. split; [exact (POST_found S db req body data rest w Hb Hrej Hdb) | ].
  split; [reflexivity | ]. split; [reflexivity | ].
  set (u := toAnnual (ToNumber S (b_salary_value body))
              (js_or (b_mode body) (JString "annual"))).
  assert (Hrow : forall lvl,
            let r := table_row S u lvl in
            ratio r = (u / ToNumber S (annual_wage r))%float
            /\ (status r = below <-> (ratio r <? 1)%float = true)
            /\ (status r = meets <->
                (1 <=? ratio r)%float = true /\ (ratio r <? 1.1)%float = true)
            /\ (status r = exceeds <->
                (1.1 <=? ratio r)%float = true \/ isNaN (ratio r) = true)
            /\ ((ratio r =? 1)%float = true -> status r = meets)
            /\ ((ratio r =? 1.1)%float = true -> status r = exceeds)).
  { intros lvl r.
    destruct (table_row_classified S u lvl) as (Hbelow & Hmeets & Hexceeds).
    fold r in Hbelow, Hmeets, Hexceeds.
    split; [reflexivity | ].
    split; [exact Hbelow | ]. split; [exact Hmeets | ]. split; [exact Hexceeds | ].
    split.
    - intros H1. apply (eqb_finite _ _ _ _ _ Prim2SF_one) in H1.
      apply Hmeets. rewrite H1. split; reflexivity.
    - intros H1. apply (eqb_finite _ _ _ _ _ Prim2SF_1_1) in H1.
      apply Hexceeds. left. rewrite H1. reflexivity. }
  intros r Hin. cbn [response_of table levels_of map In] in Hin.
  destruct Hin as [<- | [<- | [<- | [<- | []]]]]; apply Hrow.
Qed.

(** The theorem at a salary of 110000 against the levels 50000, 100000,
    110000 and 120000: the ratio of the L3 row is 1 and its status is
    [meets], the ratio of the L2 row is 1.1 and its status is [exceeds],
    the L1 row (ratio 2.2) is [exceeds] and the L4 row is [below]. *)
Lemma status_policy_A_witness :
  rejected (b_state body_thresholds) (b_county body_thresholds)
    (b_soc_code body_thresholds)
    (ToNumber no_strings (b_salary_value body_thresholds)) = false
  /\ (ratio (row_of 110000 "L3" (JNumber 110000)) =? 1)%float = true
  /\ status (row_of 110000 "L3" (JNumber 110000)) = meets
  /\ (ratio (row_of 110000 "L2" (JNumber 100000)) =? 1.1)%float = true
  /\ status (row_of 110000 "L2" (JNumber 100000)) = exceeds
  /\ (1.1 <=? ratio (row_of 110000 "L1" (JNumber 50000)))%float = true
  /\ status (row_of 110000 "L1" (JNumber 50000)) = exceeds
  /\ (ratio (row_of 110000 "L4" (JNumber 120000)) <? 1)%float = true
  /\ status (row_of 110000 "L4" (JNumber 120000)) = below.
Proof.
  assert (Hrej : rejected (b_state body_thresholds) (b_county body_thresholds)
                   (b_soc_code body_thresholds)
                   (ToNumber no_strings (b_salary_value body_thresholds)) = false)
    by reflexivity.
  destruct (status_policy_A no_strings (db_with doc_thresholds) request_thresholds
              body_thresholds doc_thresholds [] w0 eq_refl Hrej eq_refl)
    as (p & Hp & _ & _ & Hrows).
  assert (Ep : p = response_of no_strings (JString "Texas (TX)")
                     (JString "Randall County") (JString "15-1252") 110000
                     (JString "annual") 110000 doc_thresholds).
  { change (POST no_strings (db_with doc_thresholds) request_thresholds w0)
      with (@inr Error NextResponse
              (JsonOk (response_of no_strings (JString "Texas (TX)")
                         (JString "Randall County") (JString "15-1252") 110000
                         (JString "annual") 110000 doc_thresholds)), w0) in Hp.
    injection Hp as Hp. symmetry. exact Hp. }
  subst p.
  destruct (Hrows (row_of 110000 "L1" (JNumber 50000)) (or_introl eq_refl))
    as (_ & _ & _ & H1 & _ & _).
  destruct (Hrows (row_of 110000 "L2" (JNumber 100000)) (or_intror (or_introl eq_refl)))
    as (_ & _ & _ & _ & _ & H2).
  destruct (Hrows (row_of 110000 "L3" (JNumber 110000))
              (or_intror (or_intror (or_introl eq_refl))))
    as (_ & _ & _ & _ & H3 & _).
  destruct (Hrows (row_of 110000 "L4" (JNumber 120000))
              (or_intror (or_intror (or_intror (or_introl eq_refl)))))
    as (_ & H4 & _ & _ & _ & _).
  assert (E3 : (ratio (row_of 110000 "L3" (JNumber 110000)) =? 1)%float = true)
    by reflexivity.
  assert (E2 : (ratio (row_of 110000 "L2" (JNumber 100000)) =? 1.1)%float = true)
    by reflexivity.
  assert (E1 : (1.1 <=? ratio (row_of 110000 "L1" (JNumber 50000)))%float = true)
    by reflexivity.
  assert (E4 : (ratio (row_of 110000 "L4" (JNumber 120000)) <? 1)%float = true)
    by reflexivity.
  split; [exact Hrej | ].
  split; [exact E3 | ]. split; [exact (H3 E3) | ].
  split; [exact E2 | ]. split; [exact (H2 E2) | ].
  split; [exact E1 | ]. split; [exact (proj2 H1 (or_introl E1)) | ].
  split; [exact E4 | exact (proj2 H4 E4)].
Defined.

(** C2, against the claim.  A salary of -5 passes the guard and is compared,
    and a document whose level-1 wage is missing is compared as well (the
    missing wage gives a NaN ratio, classified [exceeds]). *)
Lemma validation_counterexample :
  (exists p, scenario3 = inr (JsonOk p)
             /\ map status (table p) = [below; below; below; below])
  /\ (exists p, respond doc_without_l1 (JNumber 90000) (JString "annual")
                = inr (JsonOk p)
                /\ map status (table p) = [exceeds; exceeds; below; below]).
Proof.
  split; eexists; (split; [reflexivity | reflexivity]).
Qed.

(** C2, amended.  The comparison fails with the 400 validation error, and
    produces no result, whenever the salary value is missing, is not
    numeric (its numeric reading is NaN) or is zero.  The level wages are not
    validated: once the guard is passed and a document is found, the
    comparison is produced whatever the four wages are. *)
Theorem salary_validation (S : string -> float) db req body w :
  req_json req = inr body ->
  (b_salary_value body = JUndefined
   \/ isNaN (ToNumber S (b_salary_value body)) = true
   \/ (ToNumber S (b_salary_value body) =? 0)%float = true ->
   POST S db req w = (inr (JsonError 400 invalid_input_message), w))
  /\ (forall data rest,
        rejected (b_state body) (b_county body) (b_soc_code body)
          (ToNumber S (b_salary_value body)) = false ->
        db (b_state body) (b_county body) (b_soc_code body) = inr (data :: rest) ->
        exists p, POST S db req w = (inr (JsonOk p), w)
                  /\ wages p = {| w_l1 := l1_wage data; w_l2 := l2_wage data;
                                  w_l3 := l3_wage data; w_l4 := l4_wage data |}).
Proof.
  intros Hb. split.
  - intros Hbad.
    assert (Hrej : rejected (b_state body) (b_county body) (b_soc_code body)
                     (ToNumber S (b_salary_value body)) = true).
    { unfold rejected. cbn [ToBoolean].
      destruct Hbad as [Hu | [Hn | Hz]].
      - rewrite Hu. cbn [ToNumber]. apply orb_true_r.
      - rewrite Hn. apply orb_true_r.
      - rewrite Hz. cbn [orb negb]. rewrite orb_true_r. reflexivity. }
    unfold POST, try_catch, bind, await. rewrite Hb. cbn [ret]. rewrite Hrej.
    reflexivity.
  - intros data rest Hrej Hdb.
    eexists. split; [ apply (POST_found S _ _ _ _ _ _ Hb Hrej Hdb) | reflexivity ].
Qed.

(** The theorem at a request without a salary value, and at a document
    whose level-1 wage is missing. *)
Lemma salary_validation_witness :
  POST no_strings store1 (mk_req JUndefined (JString "annual")) w0
  = (inr (JsonError 400 invalid_input_message), w0)
  /\ exists p,
       POST no_strings (db_with doc_without_l1) request1 w0 = (inr (JsonOk p), w0)
       /\ wages p = {| w_l1 := JUndefined; w_l2 := JNumber 80000;
                       w_l3 := JNumber 100000; w_l4 := JNumber 120000 |}.
Proof.
  split.
  - apply (proj1 (salary_validation no_strings store1
                    (mk_req JUndefined (JString "annual")) _ w0 eq_refl)).
    left. reflexivity.
  - apply (proj2 (salary_validation no_strings (db_with doc_without_l1)
                    request1 _ w0 eq_refl) doc_without_l1 []);
      reflexivity.
Defined.




(** C4, against the claim.  Converting to hourly and then "to annual" in
    mode ["annual"] leaves the hourly figure: from 2080 the result is 1, on
    binary64 as on the rationals. *)
Lemma round_trip_counterexample :
  (0 <=? 2080)%float = true
  /\ toAnnual (toHourly 2080%float) (JString "annual") = 1%float
  /\ (1 =? 2080)%float = false
  /\ (0 <= 2080)%Q
  /\ ~ (toAnnual (toHourly (2080 # 1)) (JString "annual") == 2080 # 1)%Q.
Proof.
  do 3 (split; [reflexivity | ]).
  split; [discriminate | ].
  intros H. vm_compute in H. discriminate H.
Qed.

(** C4, amended.  With the mode ["hourly"] on the way back as well, the
    conversions are mutual inverses up to the rounding of binary64: for
    every x >= 0, whenever the result is finite (the product by 2080 has
    not overflowed),
    |toHourly(toAnnual(x, "hourly")) - x| <= x * 2^-50 + 2^-1073 and
    |toAnnual(toHourly(x), "hourly") - x| <= x * 2^-50 + 2^-1061,
    the absolute term covering the underflow of x / 2080; and from
    [+Infinity] both round trips return [+Infinity].  Over the rationals
    both round trips return x exactly. *)
Theorem round_trip_tolerance (x : float) :
  (0 <=? x)%float = true ->
  (is_finite (toHourly (toAnnual x (JString "hourly"))) = true ->
   (Qabs (Prim2Q (toHourly (toAnnual x (JString "hourly"))) - Prim2Q x)
    <= Prim2Q x * 2 ^ (-50) + 2 ^ (-1073))%Q)
  /\ (is_finite (toAnnual (toHourly x) (JString "hourly")) = true ->
      (Qabs (Prim2Q (toAnnual (toHourly x) (JString "hourly")) - Prim2Q x)
       <= Prim2Q x * 2 ^ (-50) + 2 ^ (-1061))%Q)
  /\ (is_finite x = false ->
      toHourly (toAnnual x (JString "hourly")) = x
      /\ toAnnual (toHourly x) (JString "hourly") = x)
  /\ (forall q : Q,
        (toHourly (toAnnual q (JString "hourly")) == q)%Q
        /\ (toAnnual (toHourly q) (JString "hourly") == q)%Q).
Proof.
  intros Hle.
  change (toHourly (toAnnual x (JString "hourly")))
    with (x * float_of_Z 2080 / float_of_Z 2080)%float.
  change (toAnnual (toHourly x) (JString "hourly"))
    with (x / float_of_Z 2080 * float_of_Z 2080)%float.
  rewrite float_of_Z_2080.
  split; [ | split; [ | split] ].
  - intros Hz. pose proof (finite_not_infinity _ Hz) as Hinf.
    unfold Prim2Q in *.
    rewrite FloatAxioms.div_spec, FloatAxioms.mul_spec, Prim2SF_2080 in *.
    destruct (nonneg_cases x Hle) as [(s & E) | [(m & e & E) | E] ].
    + rewrite E in *. cbn [SFmul SFdiv xorb SF2Q].
      setoid_replace (0 - 0)%Q with 0%Q by ring.
      apply (tolerance_nonneg 0). lra.
    + rewrite E in *.
      destruct (mul_div_2080 m e) as [H | [_ H] ];
        [exfalso; exact (Hinf H) | exact H].
    + exfalso. apply Hinf. rewrite E. reflexivity.
  - intros Hz. pose proof (finite_not_infinity _ Hz) as Hinf.
    unfold Prim2Q in *.
    rewrite FloatAxioms.mul_spec, FloatAxioms.div_spec, Prim2SF_2080 in *.
    destruct (nonneg_cases x Hle) as [(s & E) | [(m & e & E) | E] ].
    + rewrite E in *. cbn [SFmul SFdiv xorb SF2Q].
      setoid_replace (0 - 0)%Q with 0%Q by ring.
      apply (tolerance_nonneg 0). lra.
    + rewrite E in *.
      destruct (div_mul_2080 m e) as [H | [_ H] ];
        [exfalso; exact (Hinf H) | exact H].
    + exfalso. apply Hinf. rewrite E. reflexivity.
  - intros Hx.
    destruct (nonneg_cases x Hle) as [(s & E) | [(m & e & E) | E] ].
    + exfalso. revert Hx. unfold is_finite, is_nan, is_infinity.
      rewrite !FloatAxioms.eqb_spec, abs_spec, E. destruct s; discriminate.
    + exfalso. revert Hx. unfold is_finite, is_nan, is_infinity.
      rewrite !FloatAxioms.eqb_spec, abs_spec, E. cbn [SFabs].
      unfold SFeqb at 1. rewrite SFcompare_refl by discriminate. discriminate.
    + subst x. split; reflexivity.
  - intros q. unfold toHourly, toAnnual.
    change (strict_eq_string (JString "hourly") "annual") with false.
    cbn [nmul ndiv nlit Q_Arith]. change (inject_Z 2080) with (2080 # 1)%Q.
    split; field.
Qed.

(** The theorem at 127.98, an hourly figure that binary64 does not return
    unchanged. *)
Lemma round_trip_tolerance_witness :
  (0 <=? 127.98)%float = true
  /\ is_finite (toHourly (toAnnual 127.98%float (JString "hourly"))) = true
  /\ is_finite (toAnnual (toHourly 127.98%float) (JString "hourly")) = true
  /\ (Qabs (Prim2Q (toHourly (toAnnual 127.98%float (JString "hourly")))
            - Prim2Q 127.98)
      <= Prim2Q 127.98 * 2 ^ (-50) + 2 ^ (-1073))%Q
  /\ (Qabs (Prim2Q (toAnnual (toHourly 127.98%float) (JString "hourly"))
            - Prim2Q 127.98)
      <= Prim2Q 127.98 * 2 ^ (-50) + 2 ^ (-1061))%Q.
Proof.
  assert (H2 : (0 <=? 127.98)%float = true) by reflexivity.
  assert (H3 : is_finite (toHourly (toAnnual 127.98%float (JString "hourly"))) = true)
    by reflexivity.
  assert (H4 : is_finite (toAnnual (toHourly 127.98%float) (JString "hourly")) = true)
    by reflexivity.
  destruct (round_trip_tolerance 127.98 H2) as (HA & HB & _).
  exact (conj H2 (conj H3 (conj H4 (conj (HA H3) (HB H4))))).
Defined.

(** The tolerance is needed, and so are its two conditions.  On binary64
    the round trip from 127.98 ends one unit in the last place above it,
    and so does the other round trip from 199.78; from the smallest
    positive number the quotient by 2080 underflows to 0; from 1e308 the
    product by 2080 overflows to [+Infinity]. *)
Lemma round_trip_rounded :
  toHourly (toAnnual 127.98%float (JString "hourly")) = 127.98000000000002%float
  /\ (127.98000000000002 =? 127.98)%float = false
  /\ toAnnual (toHourly 199.78%float) (JString "hourly") = 199.78000000000003%float
  /\ (199.78000000000003 =? 199.78)%float = false
  /\ toAnnual (toHourly 0x1p-1074%float) (JString "hourly") = 0%float.
Proof. repeat split; reflexivity. Qed.

Lemma round_trip_overflow :
  toHourly (toAnnual 1e308%float (JString "hourly")) = infinity.
Proof. reflexivity. Qed.

(** C5.  [toAnnual] returns the value unchanged in mode ["annual"] and the
    value times 2080 in mode ["hourly"]; [toHourly] returns the value
    divided by 2080.  The results are the plain binary64 product and
    quotient: no rounding step is applied to them. *)
Theorem conversion_formulas (v a : float) :
  toAnnual v (JString "annual") = v
  /\ toAnnual v (JString "hourly") = (v * 2080)%float
  /\ toHourly a = (a / 2080)%float.
Proof. repeat split; reflexivity. Qed.

(** C6, against the claim.  A level wage of negative zero is not negative
    ([0 <= -0] holds), yet with a salary of 50000 its row has the ratio
    [-Infinity], the status [below] and the negative gap -50000. *)
Lemma gap_counterexample :
  exists p r1 rest,
    respond (mk_doc neg_zero 80000 100000 120000) (JNumber 50000) (JString "annual")
    = inr (JsonOk p)
    /\ table p = r1 :: rest
    /\ (0 <? in_salary_value (input p))%float = true
    /\ (0 <=? ToNumber no_strings (annual_wage r1))%float = true
    /\ status r1 = below
    /\ toReachAnnual r1 = (-50000)%float
    /\ (0 <=? toReachAnnual r1)%float = false.
Proof.
  do 3 eexists. split; [reflexivity | ].
  split; [reflexivity | ]. repeat split; reflexivity.
Qed.

(** C6, amended.  In every successful comparison a row's gap is the level
    wage minus the annual salary exactly when its status is [below], and 0
    when its status is [meets] or [exceeds].  When the salary value is
    positive and the level wage of the row is a number that is at least 0
    and is not the negative zero, the gap is not negative. *)
Theorem amount_to_reach (S : string -> float) db req w w' p r :
  POST S db req w = (inr (JsonOk p), w') ->
  In r (table p) ->
  (status r = below ->
   toReachAnnual r = (ToNumber S (annual_wage r) - salary_annual (input p))%float)
  /\ (status r = meets \/ status r = exceeds -> toReachAnnual r = 0%float)
  /\ ((0 <? in_salary_value (input p))%float = true ->
      (0 <=? ToNumber S (annual_wage r))%float = true ->
      ToNumber S (annual_wage r) <> neg_zero ->
      (0 <=? toReachAnnual r)%float = true).
Proof.
  intros Hok Hin.
  pose proof (table_rows S _ _ _ _ _ _ Hok Hin) as Hr.
  set (lvl := {| key := level r; wageAnnual := annual_wage r |}) in Hr.
  destruct (table_row_gap S (salary_annual (input p)) lvl) as [Hb Hn].
  rewrite <- Hr in Hb, Hn.
  split; [exact Hb | ].
  split; [intros [H | H]; apply Hn; rewrite H; discriminate | ].
  intros Hpos Hle Hnz.
  destruct (status r) eqn:Hs.
  - rewrite (Hb eq_refl). apply gap_nonneg.
    + destruct (POST_ok_inv S _ _ _ _ _ Hok)
        as (body & data & rest & _ & _ & _ & -> & _).
      cbn [input salary_annual in_salary_value] in Hpos |- *.
      now apply toAnnual_sign.
    + now apply nonneg_float.
    + apply (table_row_below S _ lvl). rewrite <- Hr. exact Hs.
  - rewrite Hn by discriminate. reflexivity.
  - rewrite Hn by discriminate. reflexivity.
Qed.

(** The theorem at the level-3 row of scenario 1. *)
Lemma amount_to_reach_witness :
  POST no_strings store1 request1 w0 = (inr (JsonOk payload1), w0)
  /\ In (row_of 90000 "L3" (JNumber 100000)) (table payload1)
  /\ toReachAnnual (row_of 90000 "L3" (JNumber 100000)) = (100000 - 90000)%float
  /\ (0 <=? toReachAnnual (row_of 90000 "L3" (JNumber 100000)))%float = true.
Proof.
  assert (H1 : POST no_strings store1 request1 w0 = (inr (JsonOk payload1), w0))
    by reflexivity.
  assert (H2 : In (row_of 90000 "L3" (JNumber 100000)) (table payload1))
    by (right; right; left; reflexivity).
  split; [exact H1 | split; [exact H2 | ]].
  destruct (amount_to_reach no_strings _ _ _ _ _ _ H1 H2) as (Hb & _ & Hpos).
  split.
  - apply Hb. reflexivity.
  - apply Hpos; [reflexivity | reflexivity | discriminate].
Defined.

(** C7.  Scenario 1: for the levels 60000, 80000, 100000, 120000 and an
    annual salary of 90000 the ratios are 1.5, 1.125, 0.9, 0.75, the
    statuses exceeds, exceeds, below, below and the gaps 0, 0, 10000,
    30000, for L1 to L4. *)
Theorem scenario1_result :
  exists p,
    scenario1 = inr (JsonOk p)
    /\ map level (table p) = ["L1"; "L2"; "L3"; "L4"]%string
    /\ map ratio (table p) = [1.5; 1.125; 0.9; 0.75]%float
    /\ map status (table p) = [exceeds; exceeds; below; below]
    /\ map toReachAnnual (table p) = [0; 0; 10000; 30000]%float.
Proof.
  exists payload1. repeat split; reflexivity.
Qed.

(** C8.  The rows of a successful comparison are the levels L1, L2, L3, L4
    in this order, each with the wage the document has for it, whatever the
    magnitudes of the wages. *)
Theorem rows_in_level_order (S : string -> float) db req w w' p :
  POST S db req w = (inr (JsonOk p), w') ->
  map level (table p) = ["L1"; "L2"; "L3"; "L4"]%string
  /\ map annual_wage (table p)
     = [w_l1 (wages p); w_l2 (wages p); w_l3 (wages p); w_l4 (wages p)].
Proof.
  intros Hok.
  destruct (POST_ok_inv S _ _ _ _ _ Hok) as (body & data & rest & _ & _ & _ & -> & _).
  split; reflexivity.
Qed.

(** The theorem at a document whose wages decrease and increase again. *)
Lemma rows_in_level_order_witness :
  POST no_strings (db_with (mk_doc 120000 60000 100000 80000)) request1 w0
  = (inr (JsonOk (response_of no_strings (JString "Texas (TX)")
                    (JString "Randall County") (JString "15-1252") 90000
                    (JString "annual") 90000 (mk_doc 120000 60000 100000 80000))), w0)
  /\ map level
       (table (response_of no_strings (JString "Texas (TX)")
                 (JString "Randall County") (JString "15-1252") 90000
                 (JString "annual") 90000 (mk_doc 120000 60000 100000 80000)))
     = ["L1"; "L2"; "L3"; "L4"]%string.
Proof.
  assert (H1 : POST no_strings (db_with (mk_doc 120000 60000 100000 80000)) request1 w0
               = (inr (JsonOk (response_of no_strings (JString "Texas (TX)")
                    (JString "Randall County") (JString "15-1252") 90000
                    (JString "annual") 90000 (mk_doc 120000 60000 100000 80000))), w0))
    by reflexivity.
  split; [exact H1 | ].
  exact (proj1 (rows_in_level_order no_strings _ _ _ _ _ H1)).
Defined.

(** C9.  The handler is deterministic and keeps no state: its response does
    not depend on the world it runs in, so a second call after a first one
    answers the same; and two successful calls with the same salary value,
    the same mode and the same four level wages give the same rows (ratios,
    statuses, gaps) and the same normalized salary figures. *)
Theorem POST_deterministic (S : string -> float) db req w1 w2 :
  fst (POST S db req w1) = fst (POST S db req w2)
  /\ fst (POST S db req (snd (POST S db req w1))) = fst (POST S db req w1)
  /\ forall db' req' body body' p p' w1' w2',
       req_json req = inr body ->
       req_json req' = inr body' ->
       b_salary_value body = b_salary_value body' ->
       b_mode body = b_mode body' ->
       POST S db req w1 = (inr (JsonOk p), w1') ->
       POST S db' req' w2 = (inr (JsonOk p'), w2') ->
       wages p = wages p' ->
       table p = table p'
       /\ salary_annual (input p) = salary_annual (input p')
       /\ salary_hourly (input p) = salary_hourly (input p').
Proof.
  assert (Hworld : forall w w', fst (POST S db req w) = fst (POST S db req w')).
  { intros w w'. unfold POST, try_catch, bind, await.
    destruct (req_json req) as [err | body]; cbn [ret throw]; [reflexivity | ].
    destruct (rejected _ _ _ _); [reflexivity | ].
    destruct (db _ _ _) as [err | [ | data rest]]; reflexivity. }
  split; [apply Hworld | split; [apply Hworld | ]].
  intros db' req' body body' p p' w1' w2' Hb Hb' Hsal Hmode Hok Hok' Hw.
  destruct (POST_ok_inv S _ _ _ _ _ Hok) as (b & data & rest & Eb & _ & _ & -> & _).
  destruct (POST_ok_inv S _ _ _ _ _ Hok') as (b' & data' & rest' & Eb' & _ & _ & -> & _).
  rewrite Hb in Eb. rewrite Hb' in Eb'. inversion Eb. inversion Eb'. subst b b'.
  cbn [wages] in Hw. inversion Hw as [[E1 E2 E3 E4]].
  unfold response_of, levels_of. cbn [table input salary_annual salary_hourly map].
  rewrite Hsal, Hmode, E1, E2, E3, E4. repeat split; reflexivity.
Qed.

(** The theorem at scenario 1, called again in the world the first call
    left, and against a second store that holds the same four wages. *)
Lemma POST_deterministic_witness :
  fst (POST no_strings store1 request1 w0)
  = fst (POST no_strings store1 request1 (snd (POST no_strings store1 request1 w0)))
  /\ POST no_strings store1 request1 w0 = (inr (JsonOk payload1), w0)
  /\ POST no_strings (db_with doc_untitled) request1 w0
     = (inr (JsonOk payload_untitled), w0)
  /\ table payload1 = table payload_untitled.
Proof.
  destruct (POST_deterministic no_strings store1 request1 w0
              (snd (POST no_strings store1 request1 w0))) as (H1 & _ & _).
  destruct (POST_deterministic no_strings store1 request1 w0 w0) as (_ & _ & H3).
  assert (Ha : POST no_strings store1 request1 w0 = (inr (JsonOk payload1), w0))
    by reflexivity.
  assert (Hb : POST no_strings (db_with doc_untitled) request1 w0
               = (inr (JsonOk payload_untitled), w0)) by reflexivity.
  split; [exact H1 | split; [exact Ha | split; [exact Hb | ]]].
  apply (H3 (db_with doc_untitled) request1 _ _ payload1 payload_untitled w0 w0
           eq_refl eq_refl eq_refl eq_refl Ha Hb eq_refl).
Defined.

(** C10.  A missing or empty [mode] field is read as ["annual"], the salary
    value being the annual figure unchanged.  [toAnnual] multiplies by 2080
    for every mode other than the string ["annual"], so a request with any
    other non-empty mode string is handled as hourly; and a request that
    succeeds with one mode is never rejected with another. *)
Theorem mode_defaulting (S : string -> float) db req body w w' p :
  req_json req = inr body ->
  POST S db req w = (inr (JsonOk p), w') ->
  (b_mode body = JUndefined \/ b_mode body = JString "" ->
   in_mode (input p) = JString "annual"
   /\ salary_annual (input p) = in_salary_value (input p))
  /\ (forall s, b_mode body = JString s -> s <> ""%string -> s <> "annual"%string ->
      in_mode (input p) = JString s
      /\ salary_annual (input p) = (in_salary_value (input p) * 2080)%float)
  /\ (forall (v : float) mode, mode <> JString "annual" ->
      toAnnual v mode = (v * 2080)%float)
  /\ (forall mode, exists p',
        POST S db {| req_json := inr (with_mode body mode) |} w = (inr (JsonOk p'), w)).
Proof.
  intros Hb Hok.
  destruct (POST_ok_inv S _ _ _ _ _ Hok) as (b & data & rest & Eb & Hrej & Hdb & -> & _).
  rewrite Hb in Eb. inversion Eb. subst b.
  cbn [input in_mode salary_annual in_salary_value response_of].
  repeat split.
  - destruct H as [-> | ->]; reflexivity.
  - destruct H as [-> | ->]; reflexivity.
  - rewrite H. unfold js_or. cbn [ToBoolean].
    apply String.eqb_neq in H0. rewrite H0. reflexivity.
  - rewrite H. unfold js_or. cbn [ToBoolean].
    apply String.eqb_neq in H0. rewrite H0. cbn [negb].
    unfold toAnnual. cbn [strict_eq_string].
    apply String.eqb_neq in H1. rewrite H1. reflexivity.
  - intros v mode Hmode. unfold toAnnual.
    destruct mode as [ | | b | x | s ]; try reflexivity.
    cbn [strict_eq_string]. destruct (String.eqb_spec s "annual"); [ | reflexivity].
    subst s. now elim Hmode.
  - intros mode. eexists.
    apply (POST_found S db {| req_json := inr (with_mode body mode) |}
             (with_mode body mode) data rest w eq_refl Hrej Hdb).
Qed.

(** The theorem at an hourly figure sent with the mode ["weekly"]. *)
Lemma mode_defaulting_witness :
  POST no_strings store1 (mk_req (JNumber 43.27) (JString "weekly")) w0
  = (inr (JsonOk (response_of no_strings (JString "Texas (TX)")
                    (JString "Randall County") (JString "15-1252") 43.27
                    (JString "weekly") (43.27 * 2080)
                    (mk_doc 60000 80000 100000 120000))), w0)
  /\ toAnnual 43.27%float (JString "weekly") = (43.27 * 2080)%float.
Proof.
  assert (H1 : POST no_strings store1 (mk_req (JNumber 43.27) (JString "weekly")) w0
               = (inr (JsonOk (response_of no_strings (JString "Texas (TX)")
                    (JString "Randall County") (JString "15-1252") 43.27
                    (JString "weekly") (43.27 * 2080)
                    (mk_doc 60000 80000 100000 120000))), w0))
    by reflexivity.
  split; [exact H1 | ].
  destruct (mode_defaulting no_strings store1
              (mk_req (JNumber 43.27) (JString "weekly")) _ w0 w0 _ eq_refl H1)
    as (_ & _ & Hmul & _).
  apply Hmul. discriminate.
Defined.

(** * Further properties of the analyze route *)

(** ** Outcomes of the handler *)

Lemma rejected_iff (S : string -> float) (body : Body) :
  rejected (b_state body) (b_county body) (b_soc_code body)
    (ToNumber S (b_salary_value body)) = true
  <-> (ToBoolean (b_state body) = false \/ ToBoolean (b_county body) = false
       \/ ToBoolean (b_soc_code body) = false
       \/ (ToNumber S (b_salary_value body) =? 0)%float = true
       \/ isNaN (ToNumber S (b_salary_value body)) = true).
Proof.
  unfold rejected. cbn [ToBoolean].
  rewrite !orb_true_iff, !negb_true_iff, negb_false_iff, orb_true_iff. tauto.
Qed.

(** X1.  With a parsed body, the handler answers the 400 validation error
    exactly when one of state, county, soc_code is missing or falsy, or the
    salary value reads as zero or NaN.  In that case the store is not
    consulted (the answer is the same for every store, also one that
    throws) and the world is left as it was. *)
Theorem bad_request_iff (S : string -> float) db req body w :
  req_json req = inr body ->
  (POST S db req w = (inr (JsonError 400 invalid_input_message), w)
   <-> (ToBoolean (b_state body) = false \/ ToBoolean (b_county body) = false
        \/ ToBoolean (b_soc_code body) = false
        \/ (ToNumber S (b_salary_value body) =? 0)%float = true
        \/ isNaN (ToNumber S (b_salary_value body)) = true)).
Proof.
  intros Hb. rewrite <- rejected_iff.
  unfold POST, try_catch, bind, await. rewrite Hb. cbn [ret].
  destruct (rejected _ _ _ _).
  - split; reflexivity.
  - split; [ | discriminate].
    destruct (db _ _ _) as [err | [ | data rest]]; cbn; intros H; inversion H.
Qed.

(** The theorem at a request without a county, against a store that throws. *)
Lemma bad_request_iff_witness :
  POST no_strings (db_throwing {| message := Some "unavailable"%string |})
    {| req_json := inr body_no_county |} w0
  = (inr (JsonError 400 invalid_input_message), w0).
Proof.
  apply (bad_request_iff no_strings
           (db_throwing {| message := Some "unavailable"%string |})
           {| req_json := inr body_no_county |} body_no_county w0 eq_refl).
  right. left. reflexivity.
Defined.

(** X2.  When the guard is passed and the query returns no document, the
    handler answers 404 "No matching wage record found for given filters"
    and leaves the world as it was. *)
Theorem not_found (S : string -> float) db req body w :
  req_json req = inr body ->
  rejected (b_state body) (b_county body) (b_soc_code body)
    (ToNumber S (b_salary_value body)) = false ->
  db (b_state body) (b_county body) (b_soc_code body) = inr [] ->
  POST S db req w
  = (inr (JsonError 404 "No matching wage record found for given filters"), w).
Proof.
  intros Hb Hrej Hdb. unfold POST, try_catch, bind, await.
  rewrite Hb. cbn [ret]. rewrite Hrej, Hdb. reflexivity.
Qed.

(** The theorem at the request of scenario 1 against an empty store. *)
Lemma not_found_witness :
  POST no_strings db_empty request1 w0
  = (inr (JsonError 404 "No matching wage record found for given filters"), w0).
Proof.
  apply (not_found no_strings db_empty request1 _ w0 eq_refl); reflexivity.
Defined.

(** X3.  An error thrown by [req.json()], or by the store once the guard is
    passed, is caught: the handler answers 500 with the error's message
    (["Unknown error"] when the message is nullish) and appends exactly one
    entry to the console. *)
Theorem thrown_error_caught (S : string -> float) db req e w :
  req_json req = inl e
  \/ (exists body,
        req_json req = inr body
        /\ rejected (b_state body) (b_county body) (b_soc_code body)
             (ToNumber S (b_salary_value body)) = false
        /\ db (b_state body) (b_county body) (b_soc_code body) = inl e) ->
  POST S db req w
  = (inr (JsonError 500 (caught_message e)),
     {| console := console w ++ [logged e] |}).
Proof.
  unfold POST, try_catch, bind, await.
  intros [Hj | (body & Hb & Hrej & Hdb)].
  - rewrite Hj. reflexivity.
  - rewrite Hb. cbn [ret]. rewrite Hrej, Hdb. reflexivity.
Qed.

(** The theorem at a body that does not parse, with an error without
    message. *)
Lemma thrown_error_caught_witness :
  POST no_strings store1 (bad_json {| message := None |}) w0
  = (inr (JsonError 500 "Unknown error"),
     {| console := [logged {| message := None |}] |}).
Proof.
  apply (thrown_error_caught no_strings store1 (bad_json {| message := None |})
           {| message := None |} w0).
  left. reflexivity.
Defined.

(** X4.  The handler never lets an error escape, answers with one of the
    statuses 200, 400, 404, 500, and touches the console only when it
    answers 500: otherwise the world is unchanged, and with a 500 the
    console has grown by the one logged entry. *)
Theorem handler_outcomes (S : string -> float) db req w :
  exists r,
    fst (POST S db req w) = inr r
    /\ In (http_status_of r) [200; 400; 404; 500]%Z
    /\ (http_status_of r <> 500%Z -> snd (POST S db req w) = w)
    /\ (http_status_of r = 500%Z ->
        exists e, r = JsonError 500 (caught_message e)
                  /\ console (snd (POST S db req w)) = console w ++ [logged e]).
Proof.
  unfold POST, try_catch, bind, await.
  destruct (req_json req) as [e | body]; cbn [ret throw].
  - eexists. split; [reflexivity | ]. cbn. repeat split; auto.
    + intros H; now elim H.
    + intros _. exists e. split; reflexivity.
  - destruct (rejected _ _ _ _).
    + eexists. split; [reflexivity | ]. cbn. repeat split; auto. discriminate.
    + destruct (db _ _ _) as [e | [ | data rest]].
      * eexists. split; [reflexivity | ]. cbn. repeat split; auto.
        -- intros H; now elim H.
        -- intros _. exists e. split; reflexivity.
      * eexists. split; [reflexivity | ]. cbn. repeat split; auto. discriminate.
      * eexists. split; [reflexivity | ]. cbn. repeat split; auto. discriminate.
Qed.

(** The theorem at a store that throws: the answer is 500 and the console
    holds the caught error. *)
Lemma handler_outcomes_witness :
  exists r,
    fst (POST no_strings (db_throwing {| message := None |}) request1 w0) = inr r
    /\ http_status_of r = 500%Z
    /\ exists e, console (snd (POST no_strings (db_throwing {| message := None |})
                                request1 w0)) = [logged e].
Proof.
  destruct (handler_outcomes no_strings (db_throwing {| message := None |}) request1 w0)
    as (r & Hr & _ & _ & H500).
  exists r. split; [exact Hr | ].
  assert (Hs : http_status_of r = 500%Z).
  { assert (Hc : fst (POST no_strings (db_throwing {| message := None |}) request1 w0)
                 = inr (JsonError 500 "Unknown error")) by reflexivity.
    rewrite Hr in Hc. inversion Hc. reflexivity. }
  split; [exact Hs | ].
  destruct (H500 Hs) as (e & _ & He). exists e. exact He.
Defined.

(** ** The success response *)

(** X5.  In a success response the chart and the table describe the same
    four levels: the chart's level names are the rows' levels, its wages
    are the rows' annual wages (those of the [wages] field, L1 to L4), and
    its salary line is the normalized annual salary. *)
Theorem chart_matches_table (S : string -> float) db req w w' p :
  POST S db req w = (inr (JsonOk p), w') ->
  chart_levels (chart p) = map level (table p)
  /\ wagesAnnual (chart p) = map annual_wage (table p)
  /\ wagesAnnual (chart p)
     = [w_l1 (wages p); w_l2 (wages p); w_l3 (wages p); w_l4 (wages p)]
  /\ chart_userSalaryAnnual (chart p) = salary_annual (input p)
  /\ length (chart_levels (chart p)) = length (wagesAnnual (chart p)).
Proof.
  intros Hok.
  destruct (POST_ok_inv S _ _ _ _ _ Hok) as (body & data & rest & _ & _ & _ & -> & _).
  repeat split; reflexivity.
Qed.

(** The theorem at scenario 1. *)
Lemma chart_matches_table_witness :
  POST no_strings store1 request1 w0 = (inr (JsonOk payload1), w0)
  /\ chart_levels (chart payload1) = map level (table payload1).
Proof.
  assert (H1 : POST no_strings store1 request1 w0 = (inr (JsonOk payload1), w0))
    by reflexivity.
  split; [exact H1 | ].
  exact (proj1 (chart_matches_table no_strings _ _ _ _ _ H1)).
Defined.

(** X6.  A success response only echoes an input that passed the guard:
    state, county and soc_code are truthy, the salary value is neither zero
    nor NaN, the mode is truthy (never missing or empty), the job title is
    never [undefined], and the hourly salary is the annual one over 2080. *)
Theorem success_echo (S : string -> float) db req w w' p :
  POST S db req w = (inr (JsonOk p), w') ->
  ToBoolean (in_state (input p)) = true
  /\ ToBoolean (in_county (input p)) = true
  /\ ToBoolean (in_soc_code (input p)) = true
  /\ (in_salary_value (input p) =? 0)%float = false
  /\ isNaN (in_salary_value (input p)) = false
  /\ ToBoolean (in_mode (input p)) = true
  /\ in_job_title (input p) <> JUndefined
  /\ salary_hourly (input p) = (salary_annual (input p) / 2080)%float.
Proof.
  intros Hok.
  destruct (POST_ok_inv S _ _ _ _ _ Hok)
    as (body & data & rest & _ & Hrej & _ & -> & _).
  cbn [input in_state in_county in_soc_code in_salary_value in_mode in_job_title
       salary_hourly salary_annual response_of].
  unfold rejected in Hrej. cbn [ToBoolean] in Hrej.
  rewrite !orb_false_iff, !negb_false_iff, negb_true_iff, orb_false_iff in Hrej.
  destruct Hrej as ((((Hs & Hc) & Hsoc) & (Hz & _)) & Hn).
  repeat split; try assumption.
  - unfold js_or. destruct (ToBoolean (b_mode body)) eqn:Hm; [exact Hm | reflexivity].
  - unfold js_nullish. destruct (job_title data); discriminate.
Qed.

(** The theorem at scenario 1. *)
Lemma success_echo_witness :
  POST no_strings store1 request1 w0 = (inr (JsonOk payload1), w0)
  /\ ToBoolean (in_mode (input payload1)) = true.
Proof.
  assert (H1 : POST no_strings store1 request1 w0 = (inr (JsonOk payload1), w0))
    by reflexivity.
  split; [exact H1 | ].
  destruct (success_echo no_strings _ _ _ _ _ H1) as (_ & _ & _ & _ & _ & Hm & _).
  exact Hm.
Defined.

(** X7.  A level wage that reads as NaN (a missing wage, for one) gives a
    row whose ratio is NaN, whose status is [exceeds] and whose gap is 0,
    whatever the salary. *)
Theorem nan_wage_row (S : string -> float) db req w w' p r :
  POST S db req w = (inr (JsonOk p), w') ->
  In r (table p) ->
  isNaN (ToNumber S (annual_wage r)) = true ->
  isNaN (ratio r) = true /\ status r = exceeds /\ toReachAnnual r = 0%float.
Proof.
  intros Hok Hin Hnan.
  pose proof (table_rows S _ _ _ _ _ _ Hok Hin) as Hr. rewrite Hr.
  cbn [table_row ratio status toReachAnnual wageAnnual].
  pose proof (div_nan (salary_annual (input p)) _ Hnan) as Hq.
  destruct (nan_not_ltb _ 1%float Hq) as [H1 H2].
  rewrite H1, H2. cbn [andb]. auto.
Qed.

(** The theorem at a document whose level-1 wage is missing. *)
Lemma nan_wage_row_witness :
  In (row_of 90000 "L1" JUndefined)
    (table (response_of no_strings (JString "Texas (TX)") (JString "Randall County")
              (JString "15-1252") 90000 (JString "annual") 90000 doc_without_l1))
  /\ status (row_of 90000 "L1" JUndefined) = exceeds.
Proof.
  assert (H1 : POST no_strings (db_with doc_without_l1) request1 w0
               = (inr (JsonOk (response_of no_strings (JString "Texas (TX)")
                     (JString "Randall County") (JString "15-1252") 90000
                     (JString "annual") 90000 doc_without_l1)), w0))
    by reflexivity.
  assert (H2 : In (row_of 90000 "L1" JUndefined)
                 (table (response_of no_strings (JString "Texas (TX)")
                     (JString "Randall County") (JString "15-1252") 90000
                     (JString "annual") 90000 doc_without_l1)))
    by (left; reflexivity).
  split; [exact H2 | ].
  destruct (nan_wage_row no_strings _ _ _ _ _ _ H1 H2 eq_refl) as (_ & Hs & _).
  exact Hs.
Defined.

(** X8.  The status of a row says exactly where its ratio lies: [below]
    if and only if ratio < 1, [meets] if and only if 1 <= ratio < 1.1, and
    [exceeds] if and only if ratio >= 1.1 or the ratio is NaN. *)
Theorem status_iff (S : string -> float) db req w w' p r :
  POST S db req w = (inr (JsonOk p), w') ->
  In r (table p) ->
  (status r = below <-> (ratio r <? 1)%float = true)
  /\ (status r = meets <->
      (1 <=? ratio r)%float = true /\ (ratio r <? 1.1)%float = true)
  /\ (status r = exceeds <->
      (1.1 <=? ratio r)%float = true \/ isNaN (ratio r) = true).
Proof.
  intros Hok Hin.
  pose proof (table_rows S _ _ _ _ _ _ Hok Hin) as Hr.
  set (lvl := {| key := level r; wageAnnual := annual_wage r |}) in Hr.
  destruct (table_row_status S (salary_annual (input p)) lvl) as (Hb & Hm & He).
  rewrite <- Hr in Hb, Hm, He.
  assert (Hcode : status r =
                  if (ratio r <? 1)%float then below
                  else if ((1 <=? ratio r) && (ratio r <? 1.1))%float then meets
                  else exceeds).
  { rewrite Hr. reflexivity. }
  repeat split.
  - intros Hs. rewrite Hcode in Hs.
    destruct (ratio r <? 1)%float; [reflexivity | ].
    destruct ((1 <=? ratio r) && (ratio r <? 1.1))%float; discriminate Hs.
  - exact Hb.
  - rewrite Hcode in H. destruct (ratio r <? 1)%float; [discriminate H | ].
    destruct (1 <=? ratio r)%float; [reflexivity | ]. discriminate H.
  - rewrite Hcode in H. destruct (ratio r <? 1)%float; [discriminate H | ].
    destruct (1 <=? ratio r)%float; [ | discriminate H].
    destruct (ratio r <? 1.1)%float; [reflexivity | discriminate H].
  - intros [H1 H2]. now apply Hm.
  - intros Hs. rewrite Hcode in Hs.
    destruct (isNaN (ratio r)) eqn:Hn; [now right | left].
    destruct (ratio r <? 1)%float eqn:Hlt; [discriminate Hs | ].
    pose proof (not_ltb_leb _ 1%float Hn eq_refl Hlt) as Hge. rewrite Hge in Hs.
    cbn [andb] in Hs.
    destruct (ratio r <? 1.1)%float eqn:Hlt'; [discriminate Hs | ].
    exact (not_ltb_leb _ 1.1%float Hn eq_refl Hlt').
  - intros [Hge | Hn]; [now apply He | ].
    rewrite Hcode. destruct (nan_not_ltb _ 1%float Hn) as [H1 H2].
    rewrite H1, H2. reflexivity.
Qed.

(** The theorem at the level-2 row of scenario 1, whose ratio is 1.125. *)
Lemma status_iff_witness :
  In (row_of 90000 "L2" (JNumber 80000)) (table payload1)
  /\ ((1.1 <=? ratio (row_of 90000 "L2" (JNumber 80000)))%float = true
      \/ isNaN (ratio (row_of 90000 "L2" (JNumber 80000))) = true).
Proof.
  assert (H1 : POST no_strings store1 request1 w0 = (inr (JsonOk payload1), w0))
    by reflexivity.
  assert (H2 : In (row_of 90000 "L2" (JNumber 80000)) (table payload1))
    by (right; left; reflexivity).
  split; [exact H2 | ].
  destruct (status_iff no_strings _ _ _ _ _ _ H1 H2) as (_ & _ & He).
  apply He. reflexivity.
Defined.

(** ** Negative salaries *)

Lemma binary_round_aux_neg m e l :
  (0 <= m)%Z -> sf_neg (binary_round_aux prec emax true m e l).
Proof.
  intros Hm. unfold binary_round_aux.
  pose proof (shr_fexp_nonneg m e l Hm) as H1.
  destruct (shr_fexp prec emax m e l) as [mrs' e']. cbn [fst] in H1.
  set (m1 := round_nearest_even (shr_m mrs') (loc_of_shr_record mrs')).
  assert (Hm1 : (0 <= m1)%Z).
  { unfold m1.
    pose proof (round_nearest_even_ge (shr_m mrs') (loc_of_shr_record mrs')). lia. }
  pose proof (shr_fexp_nonneg m1 e' loc_Exact Hm1) as H2.
  destruct (shr_fexp prec emax m1 e' loc_Exact) as [mrs'' e'']. cbn [fst] in H2.
  destruct (shr_m mrs'') as [ | q | q ]; try lia.
  - exact I.
  - destruct (e'' <=? emax - prec)%Z; exact I.
Qed.

Lemma SFdiv_finite_neg (m1 m2 : positive) (e1 e2 : Z) :
  sf_neg (SFdiv prec emax (S754_finite true m1 e1) (S754_finite false m2 e2)).
Proof.
  unfold SFdiv, SFdiv_core_binary. cbn [xorb].
  set (s := (e1 - e2 - _)%Z).
  set (m' := match s with
             | Z0 => Zpos m1 | Zpos _ => Z.shiftl (Zpos m1) s | Zneg _ => 0%Z
             end).
  assert (Hm' : (0 <= m')%Z).
  { unfold m'. destruct s; try lia. apply Z.shiftl_nonneg. lia. }
  clearbody m'.
  assert (Hq : fst (Z.div_eucl m' (Zpos m2)) = (m' / Zpos m2)%Z) by reflexivity.
  destruct (Z.div_eucl m' (Zpos m2)) as [q r]. cbn [fst] in Hq. subst q.
  apply binary_round_aux_neg. apply Z.div_pos; lia.
Qed.

Lemma sf_neg_lt_one x :
  sf_neg x -> SFltb x (S754_finite false 4503599627370496 (-52)) = true.
Proof.
  destruct x as [ [ | ] | [ | ] | | [ | ] m e ]; cbn [sf_neg];
    intros H; try contradiction; reflexivity.
Qed.

Lemma neg_float_cases (x : float) :
  (x <? 0)%float = true ->
  Prim2SF x = S754_infinity true \/ exists m e, Prim2SF x = S754_finite true m e.
Proof.
  intros Hlt. rewrite FloatAxioms.ltb_spec, Prim2SF_zero in Hlt.
  destruct (Prim2SF x) as [ [ | ] | [ | ] | | [ | ] m e ];
    try discriminate Hlt; eauto.
Qed.

Lemma SFsub_pos_neg (m1 m2 : positive) (e1 e2 : Z) :
  sf_nonneg (SFsub prec emax (S754_finite false m1 e1) (S754_finite true m2 e2)).
Proof.
  unfold SFsub. cbn [cond_Zopp].
  destruct (Zpos (fst (shl_align m1 e1 (Z.min e1 e2)))
            - - Zpos (fst (shl_align m2 e2 (Z.min e1 e2))))%Z
    as [ | p | p ] eqn:Hd; try lia; cbn [binary_normalize].
  apply binary_round_nonneg.
Qed.

(** A negative number against a positive, finite one: the quotient is below
    1 and the difference (positive minus negative) is not negative. *)
Lemma negative_against_positive (u l : float) :
  (u <? 0)%float = true -> (0 <? l)%float = true -> l <> infinity ->
  (u / l <? 1)%float = true /\ (0 <=? l - u)%float = true.
Proof.
  intros Hu Hl Hfin.
  rewrite FloatAxioms.ltb_spec, FloatAxioms.div_spec, Prim2SF_one.
  rewrite FloatAxioms.leb_spec, FloatAxioms.sub_spec, Prim2SF_zero.
  assert (Hl' : exists m e, Prim2SF l = S754_finite false m e).
  { destruct (pos_float_cases l Hl) as [E | E]; [ | exact E].
    exfalso. apply Hfin. rewrite <- (SF2Prim_Prim2SF l), E. reflexivity. }
  destruct Hl' as (ml & el & ->).
  destruct (neg_float_cases u Hu) as [-> | (mu & eu & ->)].
  - split; reflexivity.
  - split.
    + apply sf_neg_lt_one, SFdiv_finite_neg.
    + apply sf_nonneg_leb, SFsub_pos_neg.
Qed.

(** X9.  A negative annual salary (the guard lets it through) is [below]
    every level whose wage is positive and finite, with a gap that is not
    negative. *)
Theorem negative_salary_row (S : string -> float) db req w w' p r :
  POST S db req w = (inr (JsonOk p), w') ->
  In r (table p) ->
  (salary_annual (input p) <? 0)%float = true ->
  (0 <? ToNumber S (annual_wage r))%float = true ->
  ToNumber S (annual_wage r) <> infinity ->
  status r = below
  /\ toReachAnnual r = (ToNumber S (annual_wage r) - salary_annual (input p))%float
  /\ (0 <=? toReachAnnual r)%float = true.
Proof.
  intros Hok Hin Hneg Hpos Hfin.
  destruct (negative_against_positive _ _ Hneg Hpos Hfin) as [Hq Hd].
  pose proof (table_rows S _ _ _ _ _ _ Hok Hin) as Hr. rewrite Hr.
  cbn [table_row ratio status toReachAnnual wageAnnual].
  rewrite Hq. auto.
Qed.

(** The theorem at the level-1 row of scenario 3 (a salary of -5). *)
Lemma negative_salary_row_witness :
  In (row_of (-5) "L1" (JNumber 60000))
    (table (response_of no_strings (JString "Texas (TX)") (JString "Randall County")
              (JString "15-1252") (-5) (JString "annual") (-5)
              (mk_doc 60000 80000 100000 120000)))
  /\ status (row_of (-5) "L1" (JNumber 60000)) = below.
Proof.
  assert (H1 : POST no_strings store1 (mk_req (JNumber (-5)) (JString "annual")) w0
               = (inr (JsonOk (response_of no_strings (JString "Texas (TX)")
                     (JString "Randall County") (JString "15-1252") (-5)
                     (JString "annual") (-5) (mk_doc 60000 80000 100000 120000))), w0))
    by reflexivity.
  assert (H2 : In (row_of (-5) "L1" (JNumber 60000))
                 (table (response_of no_strings (JString "Texas (TX)")
                     (JString "Randall County") (JString "15-1252") (-5)
                     (JString "annual") (-5) (mk_doc 60000 80000 100000 120000))))
    by (left; reflexivity).
  split; [exact H2 | ].
  destruct (negative_salary_row no_strings _ _ _ _ _ _ H1 H2) as (Hs & _).
  - reflexivity.
  - reflexivity.
  - discriminate.
  - exact Hs.
Defined.

(** * The filters route *)

(** ** Sorting *)

Section SortFacts.
Context {A : Type} (cmp : A -> A -> comparison).

Hypothesis cmp_total : forall x y, cmp x y = Gt -> cmp y x <> Gt.
Hypothesis cmp_trans : forall x y z, cmp_le cmp x y -> cmp_le cmp y z -> cmp_le cmp x z.

Lemma sort_insert_perm x l : Permutation (sort_insert cmp x l) (x :: l).
Proof.
  induction l as [ | y t IH]; cbn [sort_insert]; [reflexivity | ].
  destruct (cmp x y); try reflexivity.
  rewrite IH. apply perm_swap.
Qed.

Lemma js_sort_perm l : Permutation (js_sort cmp l) l.
Proof.
  induction l as [ | x t IH]; cbn [js_sort]; [reflexivity | ].
  rewrite sort_insert_perm. now constructor.
Qed.

Lemma sort_insert_sorted x l :
  StronglySorted (cmp_le cmp) l -> StronglySorted (cmp_le cmp) (sort_insert cmp x l).
Proof.
  induction 1 as [ | y t Hs IH Hall]; cbn [sort_insert].
  - repeat constructor.
  - destruct (cmp x y) eqn:Hxy.
    + constructor; [now constructor | ].
      constructor; [unfold cmp_le; congruence | ].
      eapply Forall_impl; [ | exact Hall].
      intros z Hz. apply (cmp_trans x y z); [unfold cmp_le; congruence | exact Hz].
    + constructor; [now constructor | ].
      constructor; [unfold cmp_le; congruence | ].
      eapply Forall_impl; [ | exact Hall].
      intros z Hz. apply (cmp_trans x y z); [unfold cmp_le; congruence | exact Hz].
    + constructor; [exact IH | ].
      eapply Permutation_Forall; [symmetry; apply sort_insert_perm | ].
      constructor; [now apply cmp_total | exact Hall].
Qed.

Lemma js_sort_sorted l : StronglySorted (cmp_le cmp) (js_sort cmp l).
Proof.
  induction l as [ | x t IH]; cbn [js_sort]; [constructor | ].
  now apply sort_insert_sorted.
Qed.
End SortFacts.

(** ** Code-unit order of strings *)

Lemma ascii_compare_N (a b : ascii) :
  Ascii.compare a b = (N_of_ascii a ?= N_of_ascii b)%N.
Proof. reflexivity. Qed.

Lemma string_compare_refl (s : string) : String.compare s s = Eq.
Proof.
  induction s as [ | a s IH]; cbn [String.compare]; [reflexivity | ].
  rewrite ascii_compare_N, N.compare_refl. exact IH.
Qed.

Lemma string_compare_trans (c : comparison) (s1 s2 s3 : string) :
  String.compare s1 s2 = c -> String.compare s2 s3 = c -> String.compare s1 s3 = c.
Proof.
  revert s2 s3.
  induction s1 as [ | a1 s1 IH]; intros [ | a2 s2] [ | a3 s3];
    cbn [String.compare]; try congruence.
  rewrite !ascii_compare_N.
  destruct (N.compare_spec (N_of_ascii a1) (N_of_ascii a2)) as [E12 | L12 | G12];
    destruct (N.compare_spec (N_of_ascii a2) (N_of_ascii a3)) as [E23 | L23 | G23];
    intros H1 H2; subst; try congruence.
  - rewrite E12, E23, N.compare_refl. now apply (IH s2).
  - rewrite E12. now apply N.compare_lt_iff in L23 as ->.
  - rewrite E12. apply N.compare_gt_iff in G23. now rewrite G23.
  - rewrite <- E23. now apply N.compare_lt_iff in L12 as ->.
  - assert (L : (N_of_ascii a1 < N_of_ascii a3)%N) by lia.
    now apply N.compare_lt_iff in L as ->.
  - rewrite <- E23. apply N.compare_gt_iff in G12. now rewrite G12.
  - assert (L : (N_of_ascii a3 < N_of_ascii a1)%N) by lia.
    apply N.compare_gt_iff in L. now rewrite L.
Qed.

Lemma string_cmp_total (x y : string) :
  String.compare x y = Gt -> String.compare y x <> Gt.
Proof. intros H. rewrite String.compare_antisym, H. discriminate. Qed.

Lemma string_cmp_le_trans (x y z : string) :
  cmp_le String.compare x y -> cmp_le String.compare y z ->
  cmp_le String.compare x z.
Proof.
  unfold cmp_le. intros Hxy Hyz.
  destruct (String.compare x y) eqn:E1; try (now elim Hxy);
    destruct (String.compare y z) eqn:E2; try (now elim Hyz).
  - apply String.compare_eq_iff in E1, E2. subst.
    rewrite string_compare_refl. discriminate.
  - apply String.compare_eq_iff in E1. subst. rewrite E2. discriminate.
  - apply String.compare_eq_iff in E2. subst. rewrite E1. discriminate.
  - rewrite (string_compare_trans Lt x y z E1 E2). discriminate.
Qed.

(** ** Facts on sets and sorted arrays *)

Lemma set_add_In (x y : string) (l : list string) :
  In y (set_add x l) <-> y = x \/ In y l.
Proof.
  unfold set_add. destruct (existsb (String.eqb x) l) eqn:E.
  - apply existsb_exists in E. destruct E as (z & Hz & Hxz).
    apply String.eqb_eq in Hxz. subst z. split; [auto | ].
    intros [-> | H]; assumption.
  - rewrite in_app_iff. cbn [In]. split.
    + intros [H | [H | []]]; auto.
    + intros [-> | H]; auto.
Qed.

Lemma set_add_NoDup (x : string) (l : list string) :
  NoDup l -> NoDup (set_add x l).
Proof.
  intros Hl. unfold set_add. destruct (existsb (String.eqb x) l) eqn:E; [exact Hl | ].
  apply NoDup_app; [exact Hl | repeat constructor; intros [] | ].
  intros y Hy [Hx | []]. subst y.
  assert (Hex : existsb (String.eqb x) l = true).
  { apply existsb_exists. exists x. split; [exact Hy | apply String.eqb_refl]. }
  congruence.
Qed.

Lemma distinct_values_acc (field : FilterDoc -> option string) docs acc :
  let out := fold_left (fun set d =>
                          match field d with
                          | Some s => if negb (String.eqb s "") then set_add s set else set
                          | None => set
                          end) docs acc in
  (NoDup acc -> NoDup out)
  /\ (forall s, In s out <->
        In s acc \/ (s <> ""%string /\ exists d, In d docs /\ field d = Some s)).
Proof.
  revert acc. induction docs as [ | d docs IH]; intros acc; cbn [fold_left].
  - split; [auto | ]. intros s. split; [auto | ].
    intros [H | (_ & d & [] & _)]. exact H.
  - specialize (IH (match field d with
                    | Some s => if negb (String.eqb s "") then set_add s acc else acc
                    | None => acc
                    end)).
    cbv zeta in IH. destruct IH as [IHn IHi]. split.
    + intros Hacc. apply IHn.
      destruct (field d) as [s | ]; [ | exact Hacc].
      destruct (negb (String.eqb s "")); [now apply set_add_NoDup | exact Hacc].
    + intros s. rewrite IHi. clear IHn IHi.
      destruct (field d) as [t | ] eqn:Ef.
      * destruct (String.eqb_spec t "") as [Et | Et]; cbn [negb].
        -- subst t. split.
           ++ intros [H | (Hs & d' & Hd' & Hf)]; [auto | ].
              right. split; [exact Hs | ]. exists d'. split; [now right | exact Hf].
           ++ intros [H | (Hs & d' & [<- | Hd'] & Hf)]; [auto | | ].
              ** rewrite Ef in Hf. inversion Hf. congruence.
              ** right. split; [exact Hs | ]. now exists d'.
        -- rewrite set_add_In. split.
           ++ intros [[-> | H] | (Hs & d' & Hd' & Hf)]; [ | auto | ].
              ** right. split; [exact Et | ]. exists d. split; [now left | exact Ef].
              ** right. split; [exact Hs | ]. exists d'. split; [now right | exact Hf].
           ++ intros [H | (Hs & d' & [<- | Hd'] & Hf)]; [auto | | ].
              ** rewrite Ef in Hf. inversion Hf. auto.
              ** right. split; [exact Hs | ]. now exists d'.
      * split.
        -- intros [H | (Hs & d' & Hd' & Hf)]; [auto | ].
           right. split; [exact Hs | ]. exists d'. split; [now right | exact Hf].
        -- intros [H | (Hs & d' & [<- | Hd'] & Hf)]; [auto | congruence | ].
           right. split; [exact Hs | ]. now exists d'.
Qed.

Lemma distinct_values_NoDup field docs : NoDup (distinct_values field docs).
Proof. apply (distinct_values_acc field docs []). constructor. Qed.

Lemma distinct_values_In field docs s :
  In s (distinct_values field docs)
  <-> s <> ""%string /\ exists d, In d docs /\ field d = Some s.
Proof.
  unfold distinct_values.
  rewrite (proj2 (distinct_values_acc field docs [])). cbn [In]. tauto.
Qed.

(** A sorted array without duplicates is strictly increasing. *)
Lemma sorted_NoDup_strict (l : list string) :
  StronglySorted (cmp_le String.compare) l -> NoDup l ->
  StronglySorted (fun a b => String.compare a b = Lt) l.
Proof.
  induction 1 as [ | a t Hs IH Hall]; intros Hnd; [constructor | ].
  inversion Hnd as [ | ? ? Hnotin Hnd']; subst.
  constructor; [now apply IH | ].
  rewrite Forall_forall in Hall |- *. intros b Hb.
  specialize (Hall b Hb). unfold cmp_le in Hall.
  destruct (String.compare a b) eqn:E; [ | reflexivity | now elim Hall].
  apply String.compare_eq_iff in E. subst b. now elim Hnotin.
Qed.

Lemma sorted_values_spec field docs :
  StronglySorted (fun a b => String.compare a b = Lt) (sorted_values field docs)
  /\ forall s, In s (sorted_values field docs)
               <-> s <> ""%string /\ exists d, In d docs /\ field d = Some s.
Proof.
  unfold sorted_values. split.
  - apply sorted_NoDup_strict.
    + apply js_sort_sorted; [exact string_cmp_total | exact string_cmp_le_trans].
    + eapply Permutation_NoDup; [symmetry; apply js_sort_perm | ].
      apply distinct_values_NoDup.
  - intros s. rewrite <- distinct_values_In. split; apply Permutation_in.
    + apply js_sort_perm.
    + symmetry. apply js_sort_perm.
Qed.

(** ** The occupations *)

Lemma occupation_step_cases acc d :
  (occupation_step acc d = acc
   /\ forall o, names_occupation d o -> In (occupation_key o) (fst acc))
  \/ (exists o, names_occupation d o
               /\ ~ In (occupation_key o) (fst acc)
               /\ occupation_step acc d
                  = (fst acc ++ [occupation_key o], snd acc ++ [o]))
  \/ (occupation_step acc d = acc /\ forall o, ~ names_occupation d o).
Proof.
  destruct acc as [keys occs]. unfold occupation_step. cbn [fst snd].
  destruct (d_soc_code d) as [soc | ] eqn:Es;
    [ | right; right; split; [reflexivity | intros o (H & _); congruence] ].
  destruct (d_job_title d) as [title | ] eqn:Et;
    [ | right; right; split; [reflexivity | intros o (_ & H & _); congruence] ].
  destruct (String.eqb_spec soc "") as [E1 | E1]; cbn [orb].
  { right; right. split; [reflexivity | ].
    intros o (H1 & _ & H3 & _). inversion H1. congruence. }
  destruct (String.eqb_spec title "") as [E2 | E2].
  { right; right. split; [reflexivity | ].
    intros o (_ & H2 & _ & H4). inversion H2. congruence. }
  set (o := {| soc_code := soc; occ_title := title |}).
  destruct (existsb (String.eqb (occupation_key o)) keys) eqn:Ex.
  - left. split; [reflexivity | ].
    intros o' (H1 & H2 & _). rewrite Es in H1. rewrite Et in H2.
    assert (o' = o) as ->.
    { destruct o' as [s' t']. cbn [soc_code occ_title] in H1, H2.
      injection H1 as <-. injection H2 as <-. reflexivity. }
    apply existsb_exists in Ex. destruct Ex as (k & Hk & Hek).
    apply String.eqb_eq in Hek. now subst k.
  - right; left. exists o.
    assert (Hnot : ~ In (occupation_key o) keys).
    { intros Hin. assert (existsb (String.eqb (occupation_key o)) keys = true).
      { apply existsb_exists. eexists. split; [exact Hin | apply String.eqb_refl]. }
      congruence. }
    split; [repeat split; assumption | ]. split; [exact Hnot | ].
    unfold set_add. rewrite Ex. reflexivity.
Qed.

Lemma collect_occupations_acc docs acc :
  fst acc = map occupation_key (snd acc) -> NoDup (fst acc) ->
  let out := fold_left occupation_step docs acc in
  fst out = map occupation_key (snd out)
  /\ NoDup (fst out)
  /\ (forall k, In k (fst acc) -> In k (fst out))
  /\ (forall o, In o (snd out) ->
        In o (snd acc) \/ exists d, In d docs /\ names_occupation d o)
  /\ (forall d o, In d docs -> names_occupation d o ->
        In (occupation_key o) (fst out)).
Proof.
  revert acc. induction docs as [ | d docs IH]; intros acc Hk Hn; cbn [fold_left].
  - repeat split; auto. intros d o [].
  - assert (Hstep : fst (occupation_step acc d) = map occupation_key (snd (occupation_step acc d))
                    /\ NoDup (fst (occupation_step acc d))
                    /\ (forall k, In k (fst acc) -> In k (fst (occupation_step acc d)))
                    /\ (forall o, In o (snd (occupation_step acc d)) ->
                          In o (snd acc) \/ names_occupation d o)
                    /\ (forall o, names_occupation d o ->
                          In (occupation_key o) (fst (occupation_step acc d)))).
    { destruct (occupation_step_cases acc d)
        as [[-> Hin] | [(o & Ho & Hnot & ->) | [-> Hno]]].
      - repeat split; auto.
      - cbn [fst snd]. repeat split.
        + rewrite map_app, Hk. reflexivity.
        + apply NoDup_app; [exact Hn | repeat constructor; intros [] | ].
          intros k Hin [<- | []]. exact (Hnot Hin).
        + intros k Hin. apply in_or_app. now left.
        + intros o' Hin. apply in_app_or in Hin.
          destruct Hin as [Hin | [<- | []]]; auto.
        + intros o' Ho'. apply in_or_app. right. left.
          destruct Ho as (A1 & A2 & _), Ho' as (B1 & B2 & _).
          rewrite A1 in B1. rewrite A2 in B2. inversion B1. inversion B2.
          unfold occupation_key. congruence.
      - repeat split; auto. intros o Ho. now elim (Hno o). }
    destruct Hstep as (S1 & S2 & S3 & S4 & S5).
    destruct (IH (occupation_step acc d) S1 S2) as (I1 & I2 & I3 & I4 & I5).
    repeat split; auto.
    + intros o Hin. destruct (I4 o Hin) as [Hin' | (d' & Hd' & Ho)].
      * destruct (S4 o Hin') as [H | H]; [now left | ].
        right. exists d. split; [now left | exact H].
      * right. exists d'. split; [now right | exact Ho].
    + intros d' o [<- | Hd'] Ho; [apply I3, S5, Ho | now apply (I5 d')].
Qed.

(** ** What the filters route returns *)

(** X10.  The filters route answers 400 "Invalid or missing type parameter"
    when [type] is missing or is none of states, counties, occupations, and
    400 "Missing 'state' parameter" when [type] is counties and [state] is
    missing or empty; in both cases the store is not read and nothing is
    logged. *)
Theorem filters_bad_request cmp (db : FilterStore) (type state : option string) w :
  (is_type type "states" = false -> is_type type "counties" = false ->
   is_type type "occupations" = false ->
   GET cmp db type state w
   = (inr (FiltersError 400 "Invalid or missing type parameter"), w))
  /\ (type = Some "counties"%string -> truthy state = false ->
      GET cmp db type state w
      = (inr (FiltersError 400 "Missing 'state' parameter"), w)).
Proof.
  split.
  - intros H1 H2 H3. unfold GET, try_catch, bind. rewrite H1, H2, H3. reflexivity.
  - intros -> Hs. unfold GET, try_catch, bind.
    change (is_type (Some "counties"%string) "states") with false.
    change (is_type (Some "counties"%string) "counties") with true.
    cbv iota. rewrite Hs. reflexivity.
Qed.

Lemma filters_bad_request_witness :
  GET String.compare (inl {| message := None |}) (Some "cities"%string) None w0
  = (inr (FiltersError 400 "Invalid or missing type parameter"), w0)
  /\ GET String.compare (inl {| message := None |}) (Some "counties"%string)
       (Some ""%string) w0
     = (inr (FiltersError 400 "Missing 'state' parameter"), w0).
Proof.
  split.
  - apply (proj1 (filters_bad_request String.compare (inl {| message := None |})
                    (Some "cities"%string) None w0)); reflexivity.
  - apply (proj2 (filters_bad_request String.compare (inl {| message := None |})
                    (Some "counties"%string) (Some ""%string) w0)); reflexivity.
Defined.

(** X11.  For [type=states] the route returns the states of the collection
    in strictly increasing code-unit order, hence without duplicates: a
    string is listed exactly when it is not empty and is the state of some
    document. *)
Theorem states_response cmp (docs : list FilterDoc) state w :
  exists states,
    GET cmp (inr docs) (Some "states"%string) state w = (inr (StatesOk states), w)
    /\ StronglySorted (fun a b => String.compare a b = Lt) states
    /\ forall s, In s states
                 <-> s <> ""%string /\ exists d, In d docs /\ d_state d = Some s.
Proof.
  exists (sorted_values d_state docs). split; [reflexivity | ].
  apply sorted_values_spec.
Qed.

(** A strictly increasing list is determined by its elements. *)
Lemma strictly_sorted_unique (l1 l2 : list string) :
  StronglySorted (fun a b => String.compare a b = Lt) l1 ->
  StronglySorted (fun a b => String.compare a b = Lt) l2 ->
  (forall x, In x l1 <-> In x l2) ->
  l1 = l2.
Proof.
  intros H1. revert l2.
  induction H1 as [ | x t1 Hs1 IH Hall1]; intros l2 H2 Hin.
  - destruct l2 as [ | y t2]; [reflexivity | ].
    destruct (proj2 (Hin y) (or_introl eq_refl)).
  - destruct H2 as [ | y t2 Hs2 Hall2].
    + destruct (proj1 (Hin x) (or_introl eq_refl)).
    + rewrite Forall_forall in Hall1, Hall2.
      assert (Hirr : forall z, String.compare z z <> Lt).
      { intros z. rewrite string_compare_refl. discriminate. }
      assert (Hxy : x = y).
      { destruct (proj1 (Hin x) (or_introl eq_refl)) as [E | Hx]; [now symmetry | ].
        destruct (proj2 (Hin y) (or_introl eq_refl)) as [E | Hy]; [exact E | ].
        exfalso. apply (Hirr x).
        exact (string_compare_trans Lt x y x (Hall1 y Hy) (Hall2 x Hx)). }
      subst y. f_equal. apply IH; [exact Hs2 | ].
      intros z. split; intros Hz.
      * destruct (proj1 (Hin z) (or_intror Hz)) as [E | Hz']; [ | exact Hz'].
        subst z. exfalso. exact (Hirr x (Hall1 x Hz)).
      * destruct (proj2 (Hin z) (or_intror Hz)) as [E | Hz']; [ | exact Hz'].
        subst z. exfalso. exact (Hirr x (Hall2 x Hz)).
Qed.

Lemma sorted_values_same (field : FilterDoc -> option string)
    (docs docs' : list FilterDoc) :
  (forall s, s <> ""%string ->
     ((exists d, In d docs /\ field d = Some s)
      <-> (exists d, In d docs' /\ field d = Some s))) ->
  sorted_values field docs = sorted_values field docs'.
Proof.
  intros Hsame.
  destruct (sorted_values_spec field docs) as [Hs Hin].
  destruct (sorted_values_spec field docs') as [Hs' Hin'].
  apply strictly_sorted_unique; [exact Hs | exact Hs' | ].
  intros x. rewrite Hin, Hin'. split; intros [Hx Hd]; (split; [exact Hx | ]);
    now apply (Hsame x Hx).
Qed.

(** X24.  The states and the counties that the filters route returns do not
    depend on the order or the multiplicity of the documents: two
    collections that hold the same documents give the same responses. *)
Theorem filters_order_free cmp (docs docs' : list FilterDoc) (state : option string) w :
  (forall d, In d docs <-> In d docs') ->
  GET cmp (inr docs) (Some "states"%string) state w
  = GET cmp (inr docs') (Some "states"%string) state w
  /\ GET cmp (inr docs) (Some "counties"%string) state w
     = GET cmp (inr docs') (Some "counties"%string) state w.
Proof.
  intros Hsame. split.
  - unfold GET, try_catch, bind.
    change (is_type (Some "states"%string) "states") with true. cbv iota.
    cbn [await ret]. rewrite (sorted_values_same d_state docs docs'); [reflexivity | ].
    intros s _. split; intros (d & Hd & Hf); exists d; split;
      try exact Hf; now apply Hsame.
  - unfold GET, try_catch, bind.
    change (is_type (Some "counties"%string) "states") with false.
    change (is_type (Some "counties"%string) "counties") with true. cbv iota.
    destruct (negb (truthy state)); [reflexivity | ].
    cbn [where_state await ret].
    set (keep := fun d : FilterDoc => match d_state d with
                                      | Some s0 => String.eqb s0 _
                                      | None => false
                                      end).
    rewrite (sorted_values_same d_county (filter keep docs) (filter keep docs'));
      [reflexivity | ].
    intros s _. split; intros (d & Hd & Hf); exists d; split; try exact Hf;
      apply filter_In in Hd; apply filter_In; destruct Hd as [Hd Hk];
      (split; [now apply Hsame | exact Hk]).
Qed.

(** The theorem at the sample collection and its reverse. *)
Lemma filters_order_free_witness :
  GET String.compare (inr sample_docs) (Some "states"%string) None w0
  = GET String.compare (inr (rev sample_docs)) (Some "states"%string) None w0.
Proof.
  apply (filters_order_free String.compare sample_docs (rev sample_docs) None w0).
  intros d. apply in_rev.
Defined.

(** X12.  For [type=counties] and a non-empty [state] the route echoes the
    state and returns, in strictly increasing code-unit order and without
    duplicates, exactly the non-empty counties of the documents of that
    state. *)
Theorem counties_response cmp (docs : list FilterDoc) (st : string) w :
  st <> ""%string ->
  exists counties,
    GET cmp (inr docs) (Some "counties"%string) (Some st) w
    = (inr (CountiesOk st counties), w)
    /\ StronglySorted (fun a b => String.compare a b = Lt) counties
    /\ forall c, In c counties
                 <-> c <> ""%string
                     /\ exists d, In d docs /\ d_state d = Some st
                                  /\ d_county d = Some c.
Proof.
  intros Hst.
  set (matching := filter (fun d => match d_state d with
                                    | Some s => String.eqb s st
                                    | None => false
                                    end) docs).
  exists (sorted_values d_county matching). split.
  - unfold GET, try_catch, bind.
    change (is_type (Some "counties"%string) "states") with false.
    change (is_type (Some "counties"%string) "counties") with true.
    cbv iota. cbn [truthy]. apply String.eqb_neq in Hst. rewrite Hst. reflexivity.
  - destruct (sorted_values_spec d_county matching) as [Hs Hin].
    split; [exact Hs | ]. intros c. rewrite Hin. unfold matching.
    split; intros (Hc & d & Hd & Hf); (split; [exact Hc | ]); exists d.
    + apply filter_In in Hd. destruct Hd as [Hd Hm].
      destruct (d_state d) as [s | ]; [ | discriminate Hm].
      apply String.eqb_eq in Hm. subst s. auto.
    + destruct Hf as [Hs' Hc']. split; [ | exact Hc'].
      apply filter_In. split; [exact Hd | ]. rewrite Hs'. apply String.eqb_refl.
Qed.

Lemma counties_response_witness :
  exists counties,
    GET String.compare (inr sample_docs) (Some "counties"%string)
      (Some "Texas (TX)"%string) w0
    = (inr (CountiesOk "Texas (TX)" counties), w0)
    /\ In "Bexar County"%string counties.
Proof.
  destruct (counties_response String.compare sample_docs "Texas (TX)" w0)
    as (counties & Hget & _ & Hin); [discriminate | ].
  exists counties. split; [exact Hget | ].
  apply Hin. split; [discriminate | ].
  eexists. split; [right; right; left; reflexivity | split; reflexivity].
Defined.

Lemma sorted_occupations_spec cmp (docs : list FilterDoc) :
  NoDup (map occupation_key (sorted_occupations cmp docs))
  /\ (forall o, In o (sorted_occupations cmp docs) ->
        exists d, In d docs /\ names_occupation d o)
  /\ (forall d o, In d docs -> names_occupation d o ->
        exists o', In o' (sorted_occupations cmp docs)
                   /\ occupation_key o' = occupation_key o).
Proof.
  unfold sorted_occupations, collect_occupations.
  destruct (collect_occupations_acc docs ([], []) eq_refl (NoDup_nil _))
    as (H1 & H2 & _ & H4 & H5).
  set (out := fold_left occupation_step docs ([], [])) in *.
  set (f := fun a b => cmp (occ_title a) (occ_title b)).
  pose proof (js_sort_perm f (snd out)) as Hperm.
  repeat split.
  - apply (Permutation_NoDup (l := map occupation_key (snd out))).
    + apply Permutation_map. symmetry. exact Hperm.
    + rewrite <- H1. exact H2.
  - intros o Hin. apply (Permutation_in _ Hperm) in Hin.
    destruct (H4 o Hin) as [[] | H]. exact H.
  - intros d o Hd Ho. specialize (H5 d o Hd Ho). rewrite H1 in H5.
    apply in_map_iff in H5. destruct H5 as (o' & Hk & Hin').
    exists o'. split; [ | exact Hk].
    apply (Permutation_in _ (Permutation_sym Hperm)). exact Hin'.
Qed.

(** X13.  For [type=occupations] the returned entries have pairwise
    distinct keys [soc_code::job_title]; each entry is the non-empty
    soc_code and job_title of some document; and every document with both
    fields non-empty is represented by an entry with its key. *)
Theorem occupations_response cmp (docs : list FilterDoc) state w :
  exists occupations,
    GET cmp (inr docs) (Some "occupations"%string) state w
    = (inr (OccupationsOk occupations), w)
    /\ NoDup (map occupation_key occupations)
    /\ (forall o, In o occupations -> exists d, In d docs /\ names_occupation d o)
    /\ (forall d o, In d docs -> names_occupation d o ->
          exists o', In o' occupations /\ occupation_key o' = occupation_key o).
Proof.
  exists (sorted_occupations cmp docs). split; [reflexivity | ].
  apply sorted_occupations_spec.
Qed.

(** X14.  When the collation is a consistent comparator (total and
    transitive), the occupations are returned in non-decreasing order of
    their job titles, and they are the deduplicated entries in another
    order (none is lost or added by the sort). *)
Theorem occupations_sorted (cmp : string -> string -> comparison)
    (docs : list FilterDoc) :
  (forall x y, cmp x y = Gt -> cmp y x <> Gt) ->
  (forall x y z, cmp x y <> Gt -> cmp y z <> Gt -> cmp x z <> Gt) ->
  StronglySorted (fun a b => cmp (occ_title a) (occ_title b) <> Gt)
    (sorted_occupations cmp docs)
  /\ Permutation (sorted_occupations cmp docs) (snd (collect_occupations docs)).
Proof.
  intros Htot Htrans. split.
  - apply (js_sort_sorted (fun a b => cmp (occ_title a) (occ_title b))).
    + intros x y. apply Htot.
    + intros x y z. apply Htrans.
  - apply js_sort_perm.
Qed.

Lemma occupations_sorted_witness :
  StronglySorted (fun a b => String.compare (occ_title a) (occ_title b) <> Gt)
    (sorted_occupations String.compare sample_docs).
Proof.
  apply (occupations_sorted String.compare sample_docs).
  - exact string_cmp_total.
  - exact string_cmp_le_trans.
Defined.

(** X15.  When reading the store throws, each of the three branches
    answers 500 with the error's message (["Unknown error"] when nullish)
    and logs the error once under "Filters API error:". *)
Theorem filters_error_caught cmp (e : Error) (type state : option string) w :
  type = Some "states"%string \/ type = Some "occupations"%string
  \/ (type = Some "counties"%string /\ truthy state = true) ->
  GET cmp (inl e) type state w
  = (inr (FiltersError 500 (caught_message e)),
     {| console := console w ++ [("Filters API error:"%string, e)] |}).
Proof.
  intros [-> | [-> | [-> Hs]]]; unfold GET, try_catch, bind.
  - reflexivity.
  - reflexivity.
  - change (is_type (Some "counties"%string) "states") with false.
    change (is_type (Some "counties"%string) "counties") with true.
    cbv iota. rewrite Hs. reflexivity.
Qed.

Lemma filters_error_caught_witness :
  GET String.compare (inl {| message := Some "offline"%string |})
    (Some "states"%string) None w0
  = (inr (FiltersError 500 "offline"),
     {| console := [("Filters API error:"%string,
                     {| message := Some "offline"%string |})] |}).
Proof.
  apply (filters_error_caught String.compare {| message := Some "offline"%string |}
           (Some "states"%string) None w0).
  left. reflexivity.
Defined.

(** X16.  Whatever the filters route offers passes the guard of the analyze
    route: a request made of a listed state, a listed county, the soc_code
    of a listed occupation and a salary that is neither zero nor NaN is not
    rejected with 400. *)
Theorem offered_options_pass_guard (S : string -> float) cmp
    (docs : list FilterDoc) (st c : string) (o : Occupation) (salary : jsval) :
  In st (sorted_values d_state docs) ->
  In c (sorted_values d_county
          (filter (fun d => match d_state d with
                            | Some s => String.eqb s st
                            | None => false
                            end) docs)) ->
  In o (sorted_occupations cmp docs) ->
  (ToNumber S salary =? 0)%float = false ->
  isNaN (ToNumber S salary) = false ->
  rejected (JString st) (JString c) (JString (soc_code o)) (ToNumber S salary) = false.
Proof.
  intros Hst Hc Ho Hz Hn.
  apply sorted_values_spec in Hst. destruct Hst as [Hst _].
  apply sorted_values_spec in Hc. destruct Hc as [Hc _].
  destruct (proj1 (proj2 (sorted_occupations_spec cmp docs)) o Ho)
    as (d & _ & _ & _ & Hsoc & _).
  unfold rejected. cbn [ToBoolean].
  apply String.eqb_neq in Hst, Hc, Hsoc. rewrite Hst, Hc, Hsoc, Hz, Hn. reflexivity.
Qed.

(** The theorem at the sample collection. *)
Lemma offered_options_pass_guard_witness :
  rejected (JString "Texas (TX)") (JString "Bexar County") (JString "13-2071")
    (ToNumber no_strings (JNumber 90000)) = false.
Proof.
  apply (offered_options_pass_guard no_strings String.compare sample_docs
           "Texas (TX)" "Bexar County"
           {| soc_code := "13-2071"; occ_title := "Credit Counselors" |}
           (JNumber 90000)).
  - right. left. reflexivity.
  - left. reflexivity.
  - left. reflexivity.
  - reflexivity.
  - reflexivity.
Defined.

(** * The page and the chart *)

Lemma SFcompare_zero_cases (x : spec_float) :
  x <> S754_nan ->
  SFltb (S754_zero false) x = negb (SFleb x (S754_zero false)).
Proof.
  destruct x as [ [ | ] | [ | ] | | [ | ] m e ]; intros H; try reflexivity.
  now elim H.
Qed.

Lemma pos_iff_not_le (n : float) :
  isNaN n = false -> (0 <? n)%float = negb (n <=? 0)%float.
Proof.
  intros Hn. rewrite FloatAxioms.ltb_spec, FloatAxioms.leb_spec, Prim2SF_zero.
  apply SFcompare_zero_cases. intros E. apply isNaN_spec in E. congruence.
Qed.

(** X17.  The two salary tests of the page agree on every number: the
    effect starts an analysis exactly for the values that [handleAnalyze]
    does not refuse. *)
Theorem salary_checks_agree (n : float) :
  hasValidSalary n = negb (salary_refused n).
Proof.
  unfold hasValidSalary, salary_refused. cbn [ToBoolean].
  destruct (isNaN n) eqn:Hn.
  - rewrite orb_true_r. reflexivity.
  - rewrite (pos_iff_not_le n Hn).
    destruct (n =? 0)%float, (n <=? 0)%float; reflexivity.
Qed.

(** X18.  [handleAnalyze] sends nothing when a selection is missing or the
    salary is refused: whatever the network would answer, the state is the
    corresponding message with the results cleared and the loading flag
    untouched. *)
Theorem handleAnalyze_refuses (S : string -> float) fetch (st : PageState) :
  (selectedState st = None \/ selectedCounty st = None
   \/ selectedOccupation st = None ->
   handleAnalyze S fetch st
   = refuse st (Some "Please select state, county, and occupation."%string))
  /\ (selectedState st <> None -> selectedCounty st <> None ->
      selectedOccupation st <> None ->
      salary_refused (S (salaryValue st)) = true ->
      handleAnalyze S fetch st
      = refuse st (Some "Please enter a valid salary value."%string)).
Proof.
  unfold handleAnalyze. cbn [ToNumber]. split.
  - intros [H | [H | H]]; rewrite H; try reflexivity.
    + now destruct (selectedState st).
    + now destruct (selectedState st), (selectedCounty st).
  - intros H1 H2 H3 Hs.
    destruct (selectedState st); [ | now elim H1].
    destruct (selectedCounty st); [ | now elim H2].
    destruct (selectedOccupation st); [ | now elim H3].
    rewrite Hs. reflexivity.
Qed.

(** The theorem at the first page without a county, against a network that
    would answer with the comparison of scenario 1. *)
Lemma handleAnalyze_refuses_witness :
  analyzeError
    (handleAnalyze reads_90000 (via_route no_strings store1 w0)
       {| selectedState := selectedState page1; selectedCounty := None;
          selectedOccupation := selectedOccupation page1;
          salaryValue := salaryValue page1; salaryMode := salaryMode page1;
          analyzeLoading := false; analyzeError := None; resultsTable := None;
          chartLevels := None; chartWagesAnnual := None;
          chartUserSalaryAnnual := None |})
  = Some "Please select state, county, and occupation."%string.
Proof.
  rewrite (proj1 (handleAnalyze_refuses reads_90000 (via_route no_strings store1 w0) _)).
  - reflexivity.
  - right. left. reflexivity.
Defined.

(** X19.  After [handleAnalyze], results and error exclude each other: if
    an error is set the four result fields are cleared, and if the table
    and chart are shown there is no error; the table, the chart levels and
    the chart wages are set or cleared together. *)
Theorem results_exclude_error (S : string -> float) fetch (st : PageState) :
  let st' := handleAnalyze S fetch st in
  (analyzeError st' <> None ->
   resultsTable st' = None /\ chartLevels st' = None
   /\ chartWagesAnnual st' = None /\ chartUserSalaryAnnual st' = None)
  /\ (results_shown st' = true -> analyzeError st' = None)
  /\ (resultsTable st' = None <-> chartLevels st' = None)
  /\ (resultsTable st' = None <-> chartWagesAnnual st' = None).
Proof.
  assert (Hafter : forall reply,
            let st' := after_fetch st reply in
            (analyzeError st' <> None ->
             resultsTable st' = None /\ chartLevels st' = None
             /\ chartWagesAnnual st' = None /\ chartUserSalaryAnnual st' = None)
            /\ (results_shown st' = true -> analyzeError st' = None)
            /\ (resultsTable st' = None <-> chartLevels st' = None)
            /\ (resultsTable st' = None <-> chartWagesAnnual st' = None)).
  { intros [err | [p | code error]]; cbn;
      repeat split; intros; try reflexivity; try discriminate; congruence. }
  assert (Hrefuse : forall msg,
            let st' := refuse st msg in
            (analyzeError st' <> None ->
             resultsTable st' = None /\ chartLevels st' = None
             /\ chartWagesAnnual st' = None /\ chartUserSalaryAnnual st' = None)
            /\ (results_shown st' = true -> analyzeError st' = None)
            /\ (resultsTable st' = None <-> chartLevels st' = None)
            /\ (resultsTable st' = None <-> chartWagesAnnual st' = None)).
  { intros msg. cbn.
    repeat split; intros; try reflexivity; try discriminate; congruence. }
  unfold handleAnalyze.
  destruct (selectedState st); [ | apply Hrefuse].
  destruct (selectedCounty st); [ | apply Hrefuse].
  destruct (selectedOccupation st); [ | apply Hrefuse].
  destruct (salary_refused _); [apply Hrefuse | apply Hafter].
Qed.

(** The theorem at the page of scenario 1 when the network fails. *)
Lemma results_exclude_error_witness :
  resultsTable (handleAnalyze reads_90000
                  (fun _ => inl {| message := Some "Failed to fetch"%string |}) page1)
  = None.
Proof.
  destruct (results_exclude_error reads_90000
              (fun _ => inl {| message := Some "Failed to fetch"%string |}) page1)
    as (H & _).
  apply H. discriminate.
Defined.

Lemma salary_accepted (n : float) :
  salary_refused n = false ->
  (n =? 0)%float = false /\ isNaN n = false /\ (0 <? n)%float = true.
Proof.
  unfold salary_refused. cbn [ToBoolean].
  rewrite !orb_false_iff, negb_false_iff, negb_true_iff, orb_false_iff.
  intros (((Hz & _) & Hn) & Hle).
  repeat split; try assumption.
  rewrite (pos_iff_not_le n Hn), Hle. reflexivity.
Qed.

Lemma positive_finite_or_infinity (n : float) :
  (0 <? n)%float = true -> is_finite n = true \/ n = infinity.
Proof.
  intros Hpos. destruct (pos_float_cases n Hpos) as [E | (m & e & E)].
  - right. rewrite <- (SF2Prim_Prim2SF n), E. reflexivity.
  - left. unfold is_finite, is_nan, is_infinity.
    rewrite !FloatAxioms.eqb_spec, abs_spec, E. cbn [SFabs].
    unfold SFeqb. rewrite SFcompare_refl by discriminate. reflexivity.
Qed.

Lemma infinity_not_finite : is_finite infinity = false.
Proof. reflexivity. Qed.

Lemma POST_rejected (S : string -> float) db req body w :
  req_json req = inr body ->
  rejected (b_state body) (b_county body) (b_soc_code body)
    (ToNumber S (b_salary_value body)) = true ->
  POST S db req w = (inr (JsonError 400 invalid_input_message), w).
Proof.
  intros Hb Hrej. unfold POST, try_catch, bind, await.
  rewrite Hb. cbn [ret]. rewrite Hrej. reflexivity.
Qed.

(** X20.  A request that [handleAnalyze] sends carries a positive salary.
    If that salary is finite the route reads the same number, which passes
    the salary tests of its guard; the only other case is [Infinity], which
    JSON turns into [null]: the route reads 0 and answers 400. *)
Theorem sent_salary (s c o : SelectOption) (n : float) (m : SalaryMode) :
  salary_refused n = false ->
  (0 <? n)%float = true
  /\ ((is_finite n = true
       /\ b_salary_value (request_body s c o n m) = JNumber n
       /\ forall S, ToBoolean (JNumber (ToNumber S (JNumber n))) = true
                    /\ isNaN (ToNumber S (JNumber n)) = false)
      \/ (n = infinity
          /\ b_salary_value (request_body s c o n m) = JNull
          /\ forall S db w,
               via_route S db w (request_body s c o n m)
               = inr (JsonError 400 invalid_input_message))).
Proof.
  intros Hok. destruct (salary_accepted n Hok) as (Hz & Hn & Hpos).
  split; [exact Hpos | ].
  destruct (positive_finite_or_infinity n Hpos) as [Hfin | ->].
  - left. split; [exact Hfin | ]. split.
    + unfold request_body. cbn [b_salary_value json_prop]. rewrite Hfin, Hz. reflexivity.
    + intros S. cbn [ToNumber ToBoolean]. rewrite Hz, Hn. split; reflexivity.
  - right. split; [reflexivity | ]. split; [reflexivity | ].
    intros S db w. unfold via_route.
    rewrite (POST_rejected S db {| req_json := inr (request_body s c o infinity m) |}
               (request_body s c o infinity m) w eq_refl);
      [reflexivity | ].
    unfold rejected, request_body.
    cbn [b_state b_county b_soc_code b_salary_value json_prop ToNumber].
    change (is_finite infinity) with false. cbn [ToNumber].
    change (ToBoolean (JNumber 0)) with false. cbn [negb].
    now rewrite orb_true_r.
Qed.

(** The theorem at a salary of 90000. *)
Lemma sent_salary_witness :
  b_salary_value (request_body (option_of "Texas (TX)") (option_of "Randall County")
                    (option_of "15-1252") 90000 ModeAnnual)
  = JNumber 90000.
Proof.
  destruct (sent_salary (option_of "Texas (TX)") (option_of "Randall County")
              (option_of "15-1252") 90000 ModeAnnual eq_refl)
    as [_ [(_ & H & _) | (H & _)]].
  - exact H.
  - discriminate H.
Defined.

Lemma mode_string_truthy (m : SalaryMode) :
  js_or (JString (mode_string m)) (JString "annual") = JString (mode_string m).
Proof. now destruct m. Qed.

(** A row of the table whose wage is missing in the document, or [null],
    does not render: [row.annual_wage.toLocaleString] is called on
    [undefined] or on [null]. *)
Lemma missing_wage_row (S : string -> float) (u : float) (lvl : Level) :
  wageAnnual lvl = JUndefined \/ wageAnnual lvl = JNull ->
  row_renders (client_row (table_row S u lvl)) = false.
Proof.
  intros [E | E]; unfold row_renders, client_row;
    cbn [table_row annual_wage c_annual_wage]; rewrite E;
    cbn [json_prop has_toLocaleString]; now rewrite andb_false_r.
Qed.

(** X21.  Page and route together: with the three selections made (their
    values not empty), a salary that the page accepts and that is finite,
    and a matching document in the store, [handleAnalyze] ends with no
    error and the loading flag off; the table holds the route's four rows
    L1 to L4 as JSON carries them and the chart fields hold the four levels
    and wages.  What [Home] then renders depends on the annual salary and
    on the rows.  If the annual salary is not finite (an hourly figure whose
    product by 2080 overflows) it arrives as [null] and the results block is
    not rendered.  Otherwise the rows of the table are rendered first: if
    one of them holds no number where the table calls [toFixed] or
    [toLocaleString], the render throws (this is the case whenever a wage
    of the document is missing or [null]); if all of them render, the
    table has the rows L1 to L4 and the chart has its four bars and a
    salary line from L1 to L4. *)
Theorem page_shows_comparison (S : string -> float) db w (st : PageState)
    (s c o : SelectOption) data rest :
  selectedState st = Some s ->
  selectedCounty st = Some c ->
  selectedOccupation st = Some o ->
  value s <> ""%string -> value c <> ""%string -> value o <> ""%string ->
  salary_refused (S (salaryValue st)) = false ->
  is_finite (S (salaryValue st)) = true ->
  db (JString (value s)) (JString (value c)) (JString (value o))
  = inr (data :: rest) ->
  let u := toAnnual (S (salaryValue st)) (JString (mode_string (salaryMode st))) in
  let st' := handleAnalyze S (via_route S db w) st in
  let rows := map client_row (map (table_row S u) (levels_of data)) in
  analyzeError st' = None
  /\ analyzeLoading st' = false
  /\ resultsTable st' = Some rows
  /\ map c_level rows = ["L1"; "L2"; "L3"; "L4"]%string
  /\ chartLevels st' = Some ["L1"; "L2"; "L3"; "L4"]%string
  /\ chartWagesAnnual st'
     = Some (map json_elem [l1_wage data; l2_wage data; l3_wage data; l4_wage data])
  /\ (is_finite u = false ->
      chartUserSalaryAnnual st' = None /\ render_results st' = NoResults)
  /\ (is_finite u = true -> forallb row_renders rows = false ->
      render_results st' = RenderError)
  /\ (is_finite u = true -> forallb row_renders rows = true ->
      exists bars line,
        render_results st' = Results ["L1"; "L2"; "L3"; "L4"]%string (Some (bars, line))
        /\ bar_x bars = ["L1"; "L2"; "L3"; "L4"]%string
        /\ bar_y bars
           = map json_elem [l1_wage data; l2_wage data; l3_wage data; l4_wage data]
        /\ line_x line = ["L1"; "L4"]%string
        /\ exists v, chartUserSalaryAnnual st' = Some v /\ line_y line = [v; v])
  /\ (In JUndefined [l1_wage data; l2_wage data; l3_wage data; l4_wage data]
      \/ In JNull [l1_wage data; l2_wage data; l3_wage data; l4_wage data] ->
      forallb row_renders rows = false).
Proof.
  intros Hs Hc Ho Vs Vc Vo Hok Hfin Hdb u st' rows.
  destruct (salary_accepted _ Hok) as (Hz & Hn & Hpos).
  set (n := S (salaryValue st)) in *.
  set (body := request_body s c o n (salaryMode st)).
  assert (Hsal : b_salary_value body = JNumber n).
  { unfold body, request_body. cbn [b_salary_value json_prop]. now rewrite Hfin, Hz. }
  assert (Hrej : rejected (b_state body) (b_county body) (b_soc_code body)
                   (ToNumber S (b_salary_value body)) = false).
  { rewrite Hsal. unfold body, request_body, rejected.
    cbn [b_state b_county b_soc_code ToNumber ToBoolean].
    apply String.eqb_neq in Vs, Vc, Vo. now rewrite Vs, Vc, Vo, Hz, Hn. }
  pose proof (POST_found S db {| req_json := inr body |} body data rest w
                eq_refl Hrej Hdb) as Hpost.
  assert (Hst' : st' = after_fetch st
                         (inr (JsonOk (response_of S (b_state body) (b_county body)
                            (b_soc_code body) n (JString (mode_string (salaryMode st)))
                            u data)))).
  { unfold st', handleAnalyze. rewrite Hs, Hc, Ho. cbn [ToNumber]. fold n.
    rewrite Hok. fold body. unfold via_route. rewrite Hpost. cbn [fst].
    rewrite Hsal. cbn [ToNumber b_mode body request_body].
    rewrite mode_string_truthy. reflexivity. }
  assert (Hrender : render_results st'
                    = match number_or_null (json_prop (JNumber u)) with
                      | Some salary =>
                          if forallb row_renders rows
                          then Results ["L1"; "L2"; "L3"; "L4"]%string
                                 (WageBarChart ["L1"; "L2"; "L3"; "L4"]%string
                                    (map json_elem [l1_wage data; l2_wage data;
                                                    l3_wage data; l4_wage data])
                                    salary)
                          else RenderError
                      | None => NoResults
                      end).
  { rewrite Hst'. reflexivity. }
  assert (Hsalary : chartUserSalaryAnnual st' = number_or_null (json_prop (JNumber u))).
  { rewrite Hst'. reflexivity. }
  rewrite Hrender, Hsalary.
  rewrite Hst'. cbn [after_fetch analyzeError analyzeLoading resultsTable chartLevels
                     chartWagesAnnual response_of table chart chart_levels
                     wagesAnnual].
  do 6 (split; [reflexivity | ]).
  cbn [json_prop]. split; [ | split; [ | split] ].
  - intros ->. cbn [number_or_null]. split; reflexivity.
  - intros -> ->. now destruct (u =? 0)%float.
  - intros -> ->.
    destruct (u =? 0)%float; cbn [number_or_null];
      do 2 eexists; (split; [reflexivity | ]); repeat split; eexists; split; reflexivity.
  - intros Hmiss. unfold rows. cbn [levels_of map forallb].
    assert (Hone : forall lvl, wageAnnual lvl = JUndefined \/ wageAnnual lvl = JNull ->
                     row_renders (client_row (table_row S u lvl)) = false)
      by apply missing_wage_row.
    cbn [In] in Hmiss.
    destruct Hmiss as [ [E | [E | [E | [E | [] ] ] ] ] | [E | [E | [E | [E | [] ] ] ] ] ];
      symmetry in E;
      first [ rewrite (Hone {| key := "L1"; wageAnnual := l1_wage data |}) by (cbn; auto);
              reflexivity
            | rewrite (Hone {| key := "L2"; wageAnnual := l2_wage data |}) by (cbn; auto);
              now rewrite andb_false_r
            | rewrite (Hone {| key := "L3"; wageAnnual := l3_wage data |}) by (cbn; auto);
              now rewrite !andb_false_r
            | rewrite (Hone {| key := "L4"; wageAnnual := l4_wage data |}) by (cbn; auto);
              now rewrite !andb_false_r ].
Qed.

(** The theorem at the page of scenario 1, where the four rows render. *)
Lemma page_shows_comparison_witness :
  analyzeError (handleAnalyze reads_90000 (via_route reads_90000 store1 w0) page1) = None
  /\ exists bars line,
       render_results (handleAnalyze reads_90000 (via_route reads_90000 store1 w0) page1)
       = Results ["L1"; "L2"; "L3"; "L4"]%string (Some (bars, line))
       /\ line_x line = ["L1"; "L4"]%string.
Proof.
  destruct (page_shows_comparison reads_90000 store1 w0 page1
              (option_of "Texas (TX)") (option_of "Randall County")
              (option_of "15-1252") (mk_doc 60000 80000 100000 120000) [])
    as (H1 & _ & _ & _ & _ & _ & _ & _ & H9 & _);
    try reflexivity; try discriminate.
  split; [exact H1 | ].
  destruct (H9 eq_refl eq_refl) as (bars & line & Hr & _ & _ & Hx & _).
  exists bars, line. split; assumption.
Defined.

(** With the document whose level-1 wage is missing the annual salary is
    finite and the results block is entered, and its first row throws. *)
Lemma page_throws_without_l1 :
  render_results
    (handleAnalyze reads_90000 (via_route reads_90000 (db_with doc_without_l1) w0) page1)
  = RenderError.
Proof. reflexivity. Qed.

(** X22.  [WageBarChart] renders nothing exactly when it is given no level
    or no wage; otherwise its bars are the levels against the wages and
    its salary line runs from the first level to the last at the height
    of the salary. *)
Theorem chart_null_iff (levels : list string) (wagesAnnual : list jsval)
    (userSalaryAnnual : float) :
  (WageBarChart levels wagesAnnual userSalaryAnnual = None
   <-> levels = [] \/ wagesAnnual = [])
  /\ (forall bars line,
        WageBarChart levels wagesAnnual userSalaryAnnual = Some (bars, line) ->
        bar_x bars = levels /\ bar_y bars = wagesAnnual
        /\ line_x line = [hd EmptyString levels; last levels EmptyString]
        /\ line_y line = [userSalaryAnnual; userSalaryAnnual]).
Proof.
  unfold WageBarChart. split.
  - destruct levels as [ | l ls], wagesAnnual as [ | x xs]; cbn [List.length Nat.eqb orb];
      split; intros H; try reflexivity; try discriminate H; auto;
      destruct H as [H | H]; discriminate H.
  - intros bars line.
    destruct (Nat.eqb (List.length levels) 0 || Nat.eqb (List.length wagesAnnual) 0);
      [discriminate | ].
    intros H. inversion H. repeat split.
Qed.


